(** * Energy dashboard: price colour scaling, hourly price index,
      chart payload normalisation and forecast series styling.

    A shallow embedding of the data-handling code of the dashboard:

    - [EuropePriceMap]  (EuropePriceMap.tsx): the zone table, the robust
      percentile range, the per-hour region/price map and the colour scale;
    - [ChatInterface]   (ChatInterface.tsx): [renderChart], the defensive
      adapter that turns an agent's chart payload into a chart element or a
      diagnostic block;
    - [ForecastsChart]  (PriceChart.tsx): per-series line styling and the
      legend-click transition, the chart rows;
    - [SparklineChart]  (SparklineChart.tsx): the points and the peak of a
      sparkline;
    - [Index]           (Index.tsx): the headline of the volatility card.

    Numbers.  A JavaScript number is a binary64 float.  Prices and chart
    values are modelled as rationals ([Q]): every finite float is a rational,
    the comparisons the code performs ([<], [>=], [===], the sign of [a - b])
    coincide with the exact ones on finite floats, and the only arithmetic
    whose rounding is visible (the hue interpolation) is monotone in both
    readings.  NaN and the infinities are outside the model.

    Strings.  A JavaScript string is modelled by a byte string, the UTF-8
    form of its text; equality of strings is equality of their bytes, and
    every name the code writes is ASCII.  The case conversions of the
    runtime follow the Unicode tables, which turn some letters outside
    ASCII into ASCII ones (the ligature U+FB01 is upper-cased to "FI"):
    where a string of any content is converted (the zone codes of a price
    snapshot), the conversion is a parameter, [toUpperCase], and what is
    proved holds for every function in its place; [Str] is its ASCII
    fragment, used on text that is ASCII. *)

From Stdlib Require Import ZArith QArith Qminmax Qround Lqa Lia.
From Stdlib Require Import List String Ascii Bool DecimalString.
From Stdlib Require Import Orders Sorting.Mergesort Sorted Permutation.
From Stdlib Require Import Floats.PrimFloat Numbers.Cyclic.Int63.Uint63.
From stdpp Require Import base gmap strings.

Set Default Proof Using "Type".
Local Open Scope string_scope.

(** ** Strings: the ASCII fragment of [toUpperCase] / [toLowerCase] *)

Module Str.

Definition is_lower (c : ascii) : bool :=
  let n := nat_of_ascii c in (97 <=? n)%nat && (n <=? 122)%nat.

Definition is_upper (c : ascii) : bool :=
  let n := nat_of_ascii c in (65 <=? n)%nat && (n <=? 90)%nat.

Definition upper_char (c : ascii) : ascii :=
  if is_lower c then ascii_of_nat (nat_of_ascii c - 32) else c.

Definition lower_char (c : ascii) : ascii :=
  if is_upper c then ascii_of_nat (nat_of_ascii c + 32) else c.

Fixpoint map_chars (f : ascii -> ascii) (s : string) : string :=
  match s with
  | EmptyString => EmptyString
  | String c r => String (f c) (map_chars f r)
  end.

(** [String.prototype.toUpperCase] on ASCII text: on a string of ASCII
    characters it is the runtime's function.  Other bytes are kept, while
    the runtime turns some letters outside ASCII into ASCII ones (U+00DF
    into "SS", U+0131 into "I", U+017F into "S", the ligatures U+FB00 to
    U+FB06 into "FF", "FI", "FL", "FFI", "FFL", "ST", "ST").  It stands
    for the runtime's function only on text that is ASCII. *)
Definition toUpperCase : string -> string := map_chars upper_char.

(** [String.prototype.toLowerCase] on ASCII text.  The one letter outside
    ASCII that the runtime turns into an ASCII one is U+212A, into "k". *)
Definition toLowerCase : string -> string := map_chars lower_char.

End Str.

(** ** Plain objects as ordered property lists *)

Module Rec.

(** Own-property read [obj[key]]; [None] is [undefined]. *)
Fixpoint get {A} (key : string) (obj : list (string * A)) : option A :=
  match obj with
  | nil => None
  | (k, v) :: rest => if String.eqb k key then Some v else get key rest
  end.

(** Property write [obj[key] = v]: an existing property keeps its place,
    a new one goes last. *)
Fixpoint set {A} (key : string) (v : A) (obj : list (string * A)) : list (string * A) :=
  match obj with
  | nil => (key, v) :: nil
  | (k, w) :: rest =>
      if String.eqb k key then (k, v) :: rest else (k, w) :: set key v rest
  end.

End Rec.

(** ** EuropePriceMap.tsx *)

Module EuropePriceMap.

Local Open Scope Q_scope.

(** [ZONE_TO_ISO3]: bidding-zone code to ISO3 region, many-to-one. *)
Definition ZONE_TO_ISO3 : list (string * string) :=
  [ ("CH", "CHE"); ("DE", "DEU"); ("FR", "FRA"); ("AT", "AUT");
    ("IT", "ITA"); ("ES", "ESP"); ("NL", "NLD"); ("BE", "BEL");
    ("PL", "POL"); ("FI", "FIN"); ("PT", "PRT");
    ("UK", "GBR"); ("GB", "GBR");
    ("NO2", "NOR"); ("NO", "NOR");
    ("SE3", "SWE"); ("SE", "SWE");
    ("DK1", "DNK"); ("DK", "DNK") ]%list.

(** [ZONE_TO_ISO3[zoneCode.toUpperCase()]].  [toUpperCase] is the
    runtime's [String.prototype.toUpperCase], a parameter: zone codes are
    the keys of a fetched object and may hold any character.  Only the
    table's own entries answer: every name the table inherits has a
    lower-case ASCII letter, and a string the runtime has upper-cased has
    none. *)
Definition resolve (toUpperCase : string -> string) (zoneCode : string) : option string :=
  Rec.get (toUpperCase zoneCode) ZONE_TO_ISO3.

(** One element of [HourlyPrices]: [{ hour; prices }].  [prices] lists the
    record's entries in the order [Object.entries] / [Object.values]
    enumerate them; [None] is a [null] price. *)
Record HourData := { hour : Z; prices : list (string * option Q) }.

Definition HourlyPrices := list HourData.

Record PriceRange := { minPrice : Q; maxPrice : Q }.

(** [p !== null] over [Object.values(h.prices)], any hour. *)
Definition hasValidPrices (hours : HourlyPrices) : bool :=
  existsb (fun h => existsb (fun e => match snd e with Some _ => true | None => false end)
                            (prices h)) hours.

(** The comparator handed to [Array.prototype.sort]: [(a, b) => a - b]. *)
Definition compareFn (a b : Q) : Q := a - b.

(** [a] may stay in front of [b] when the comparator is not positive. *)
Module PriceOrder <: TotalLeBool.
Definition t := Q.
Definition leb (a b : Q) : bool := Qle_bool (compareFn a b) 0.
Lemma leb_total : forall a b, leb a b = true \/ leb b a = true.
Proof.
  intros a b. unfold leb, compareFn.
  destruct (Qlt_le_dec b a) as [H | H].
  - right. apply Qle_bool_iff. lra.
  - left. apply Qle_bool_iff. lra.
Qed.
End PriceOrder.

(** [Array.prototype.sort] under that comparator: the ascending
    arrangement of the array.  Merge sort yields the same arrangement, up
    to the order of prices the comparator holds equal. *)
Module PriceSort := Sort PriceOrder.

(** The array [allPrices] after the two nested [forEach] loops: every
    price that is present and [>= 0], hour by hour, entry by entry. *)
Definition allPrices (hours : HourlyPrices) : list Q :=
  flat_map (fun hourData =>
    flat_map (fun e => match snd e with
                       | Some p => if Qle_bool 0 p then [p] else []
                       | None => []
                       end) (prices hourData)) hours.

(** [Math.floor(n * 0.05)] and [Math.floor(n * 0.95)]. *)
Definition p5Index (n : nat) : nat := Z.to_nat (Qfloor (inject_Z (Z.of_nat n) * 0.05)).
Definition p95Index (n : nat) : nat := Z.to_nat (Qfloor (inject_Z (Z.of_nat n) * 0.95)).

(** The range computation on the collected prices (from the emptiness test
    on).  An array read past the end is [undefined]; that is the [None]
    result, which [computeRobustRange_total] rules out. *)
Definition computeRobustRange (collected : list Q) : option PriceRange :=
  if (length collected =? 0)%nat then Some {| minPrice := 0; maxPrice := 100 |}
  else
    let sorted := PriceSort.sort collected in
    match nth_error sorted (p5Index (length sorted)),
          nth_error sorted (p95Index (length sorted)) with
    | Some robustMin, Some robustMax => Some {| minPrice := robustMin; maxPrice := robustMax |}
    | _, _ => None
    end.

(** The [minPrice]/[maxPrice] memo.  [apiHours] is [null] before a
    successful fetch; [hasData] is the component's state flag. *)
Definition robustRange (apiHours : option HourlyPrices) (hasData : bool) : option PriceRange :=
  match apiHours with
  | None => Some {| minPrice := 0; maxPrice := 100 |}
  | Some hours =>
      if negb hasData then Some {| minPrice := 0; maxPrice := 100 |}
      else computeRobustRange (allPrices hours)
  end.

(** The [priceMap] memo: the first snapshot of the selected hour, its
    entries folded into a [Map] keyed by region. *)
Definition priceMapStep (toUpperCase : string -> string)
    (m : gmap string Q) (e : string * option Q) : gmap string Q :=
  match snd e with
  | None => m
  | Some val =>
      match resolve toUpperCase (fst e) with
      | Some iso3 => <[iso3 := val]> m
      | None => m
      end
  end.

Definition priceMap (toUpperCase : string -> string)
    (apiHours : option HourlyPrices) (selectedHour : Z) : gmap string Q :=
  match apiHours with
  | None => ∅
  | Some hours =>
      match find (fun h => Z.eqb (hour h) selectedHour) hours with
      | None => ∅
      | Some hourObj => fold_left (priceMapStep toUpperCase) (prices hourObj) ∅
      end
  end.

(** A fill colour: a literal hex string, or [hsl(hue, s%, l%)]. *)
Inductive Color :=
| Hex (code : string)
| Hsl (hue : Q) (saturation lightness : Z).

Definition negativeColor : Color := Hex "#3b82f6".
Definition degenerateColor : Color := Hsl 80 85 50.

Definition Qltb (a b : Q) : bool := negb (Qle_bool b a).

Definition calculateDynamicColor (price min max : Q) : Color :=
  if Qltb price 0 then Hex "#3b82f6"
  else if Qeq_bool max min then Hsl 80 85 50
  else
    let safePrice := Qmin (Qmax price min) max in
    let ratio := (safePrice - min) / (max - min) in
    let hue := 140 - ratio * 140 in
    Hsl hue 80 45.

Definition colorFor (price : Q) (range : PriceRange) : Color :=
  calculateDynamicColor price (minPrice range) (maxPrice range).

(** *** The map layer: features, the Europe filter, the fill style *)

(** [GeoJSONFeatureProperties]: every property may be missing. *)
Record GeoJSONFeatureProperties :=
  { ISO3 : option string; ISO_A3 : option string; ADM0_A3 : option string;
    NAME : option string; name : option string }.

(** [a || b] on optional strings: the empty string is falsy. *)
Definition orString (a b : option string) : option string :=
  match a with
  | Some s => if String.eqb s "" then b else a
  | None => b
  end.

Definition getISO (props : option GeoJSONFeatureProperties) : option string :=
  match props with
  | None => None
  | Some props => orString (orString (ISO3 props) (ISO_A3 props)) (ADM0_A3 props)
  end.

Definition europeanCountries : gset string :=
  list_to_set
    [ "DEU"; "FRA"; "CHE"; "AUT"; "ITA"; "ESP"; "PRT"; "NLD"; "BEL"; "POL"; "CZE";
      "DNK"; "SWE"; "NOR"; "FIN"; "GBR"; "IRL"; "GRC"; "HUN"; "SVK"; "ROU"; "BGR";
      "HRV"; "SVN"; "SRB"; "EST"; "LVA"; "LTU"; "LUX"; "BIH"; "MNE"; "ALB"; "MKD";
      "UKR"; "BLR"; "MDA" ].

(** A GeoJSON feature, as far as the map reads it. *)
Record Feature := { properties : option GeoJSONFeatureProperties }.

(** The predicate of [data.features.filter(...)]:
    [iso && europeanCountries.has(iso)]. *)
Definition keepFeature (f : Feature) : bool :=
  match getISO (properties f) with
  | Some iso => negb (String.eqb iso "") && bool_decide (iso ∈ europeanCountries)
  | None => false
  end.

Definition filtered (features : list Feature) : list Feature :=
  filter (fun f => keepFeature f = true) features.

(** The [PathOptions] the style callback fills in. *)
Record PathOptions :=
  { fillColor : Color; fillOpacity : Q; weight : Q; color : string; opacity : Q }.

(** [iso ? priceMap.get(iso) : undefined] *)
Definition priceOf (priceMap : gmap string Q) (iso : option string) : option Q :=
  match iso with
  | Some code => if String.eqb code "" then None else priceMap !! code
  | None => None
  end.

(** [getStyleForFeature], with the memo values it closes over as
    arguments; [None] is the empty options object returned for a missing
    feature. *)
Definition getStyleForFeature (priceMap : gmap string Q) (minPrice maxPrice : Q)
    (feature : option Feature) : option PathOptions :=
  match feature with
  | None => None
  | Some feature =>
      let iso := getISO (properties feature) in
      let price := priceOf priceMap iso in
      Some {| fillColor := match price with
                           | Some price => calculateDynamicColor price minPrice maxPrice
                           | None => Hex "#e2e8f0"
                           end;
              fillOpacity := match price with Some _ => 0.85 | None => 0.3 end;
              weight := 1;
              color := "#ffffff";
              opacity := 1 |}
  end.

End EuropePriceMap.

(** ** ChatInterface.tsx: [renderChart] *)

Module ChatInterface.

Local Open Scope Q_scope.

(** JavaScript values as far as a chart payload can reach them: what
    [JSON.parse] and [response.json()] build, plus [undefined].  An object
    is its list of own properties in enumeration order. *)
#[warnings="-register-all"]
Inductive Value :=
| VUndefined
| VNull
| VBool (b : bool)
| VNum (q : Q)
| VStr (s : string)
| VArr (items : list Value)
| VObj (props : list (string * Value)).

(** ToBoolean. *)
Definition truthy (v : Value) : bool :=
  match v with
  | VUndefined | VNull => false
  | VBool b => b
  | VNum q => negb (Qeq_bool q 0)
  | VStr s => negb (String.eqb s "")
  | VArr _ | VObj _ => true
  end.

(** [Array.isArray]. *)
Definition isArray (v : Value) : bool :=
  match v with VArr _ => true | _ => false end.

(** [a || b]. *)
Definition orElse (a b : Value) : Value := if truthy a then a else b.

Inductive Exception := TypeError.

(** A computation either completes with a value or throws. *)
Inductive Outcome (A : Type) :=
| Ok (a : A)
| Throw (e : Exception).
Arguments Ok {A} a.
Arguments Throw {A} e.

Definition bind {A B} (m : Outcome A) (k : A -> Outcome B) : Outcome B :=
  match m with
  | Ok a => k a
  | Throw e => Throw e
  end.

Notation "'let*' x ':=' m 'in' k" := (bind m (fun x => k))
  (at level 10, x pattern, m at level 100, k at level 200).

(** [try { body } catch { handler }]. *)
Definition tryCatch {A} (body : Outcome A) (handler : A) : A :=
  match body with
  | Ok a => a
  | Throw _ => handler
  end.

(** Property read [v.key] for the names [renderChart] reads ([chart_data],
    [data], [x], [y], [ylabel], [title], [datasets], [dataset], [labels],
    [type], [options]): no built-in prototype defines any of them, so only
    an object's own properties answer; reading from [null] or [undefined]
    throws. *)
Definition get (v : Value) (key : string) : Outcome Value :=
  match v with
  | VUndefined | VNull => Throw TypeError
  | VObj props => Ok (match Rec.get key props with Some x => x | None => VUndefined end)
  | VBool _ | VNum _ | VStr _ | VArr _ => Ok VUndefined
  end.

(** Property write [v.key = x] on a plain object.  [renderChart] writes
    only to plain objects ([renderChart_throws_only_on_null]); the other
    cases are the strict-mode TypeError. *)
Definition set (v : Value) (key : string) (x : Value) : Outcome Value :=
  match v with
  | VObj props => Ok (VObj (Rec.set key x props))
  | _ => Throw TypeError
  end.

(** How [chartPayload] stands to [rawPayload], which the diagnostic block
    prints after the adaptation rules have written to [chartPayload]:
    - [Detached]: [chartPayload] was built by [JSON.parse], or found inside
      such a value; writes to it do not reach [rawPayload];
    - [Whole]: [chartPayload] is the very object [rawPayload];
    - [Inner]: [chartPayload] is the object held in [rawPayload.chart_data].
    A payload is a tree (it comes out of a JSON decoder), and the rules
    never write into a value they have shared, so this is all the aliasing
    there is. *)
Inductive Alias := Detached | Whole | Inner.

(** [rawPayload] as it reads once [chartPayload] has its final value. *)
Definition rawNow (rawPayload : Value) (alias : Alias) (chartPayload : Value) : Value :=
  match alias with
  | Detached => rawPayload
  | Whole => chartPayload
  | Inner =>
      match rawPayload with
      | VObj props => VObj (Rec.set "chart_data" chartPayload props)
      | _ => rawPayload
      end
  end.

(** What [renderChart] returns. *)
Inductive Element :=
| Null                                   (* [null]: nothing is rendered *)
| StructureMismatch (debugData : Value)  (* the yellow block; DEBUG DATA prints [rawPayload] *)
| LineChart (data options : Value)       (* [<Line data options />] *)
| BarChart (data options : Value)        (* [<Bar data options />] *)
| RenderError.                           (* "Error rendering visualization." *)

Section RenderChart.

(** The host's [JSON.parse]; [None] is a thrown SyntaxError. *)
Variable JSON_parse : string -> option Value.

(** 0. STRING PARSING FIX *)
Definition stringParsingFix (rawPayload : Value) : Value * Alias :=
  match rawPayload with
  | VStr s =>
      match JSON_parse s with
      | Some v => (v, Detached)
      | None => (rawPayload, Whole)
      end
  | _ => (rawPayload, Whole)
  end.

(** 1. UNWRAPPING *)
Definition unwrapping (st : Value * Alias) : Outcome (Value * Alias) :=
  let (chartPayload, alias) := st in
  let* chart_data := get chartPayload "chart_data" in
  if truthy chart_data
  then Ok (chart_data, match alias with Whole => Inner | _ => Detached end)
  else Ok (chartPayload, alias).

(** Caso D: [data.x] and [data.y] are arrays. *)
Definition casoD (chartPayload : Value) : Outcome Value :=
  let* data := get chartPayload "data" in
  if negb (truthy data) then Ok chartPayload else
  let* xData := get data "x" in
  if negb (isArray xData) then Ok chartPayload else
  let* yData := get data "y" in
  if negb (isArray yData) then Ok chartPayload else
  let* ylabel := get data "ylabel" in
  let* title := get data "title" in
  let label := orElse ylabel (orElse title (VStr "Value")) in
  set chartPayload "data"
    (VObj [ ("labels", xData);
            ("datasets", VArr [ VObj [ ("label", label);
                                       ("data", yData);
                                       ("borderColor", VStr "rgba(54, 162, 235, 1)");
                                       ("backgroundColor", VStr "rgba(54, 162, 235, 0.2)");
                                       ("borderWidth", VNum 2) ] ]) ]).

(** Caso A: [datasets] at the root, no [data] wrapper. *)
Definition casoA (chartPayload : Value) : Outcome Value :=
  let* data := get chartPayload "data" in
  if truthy data then Ok chartPayload else
  let* datasets := get chartPayload "datasets" in
  if negb (truthy datasets) then Ok chartPayload else
  let* labels := get chartPayload "labels" in
  set chartPayload "data"
    (VObj [ ("labels", orElse labels (VArr [])); ("datasets", datasets) ]).

(** [Array.isArray(v) ? v : [v]] *)
Definition asArray (v : Value) : Value := if isArray v then v else VArr [v].

(** Caso B: [data.dataset], singular. *)
Definition casoB (chartPayload : Value) : Outcome Value :=
  let* data := get chartPayload "data" in
  if negb (truthy data) then Ok chartPayload else
  let* dataset := get data "dataset" in
  if negb (truthy dataset) then Ok chartPayload else
  let* datasets := get data "datasets" in
  if truthy datasets then Ok chartPayload else
  let* data' := set data "datasets" (asArray dataset) in
  set chartPayload "data" data'.

(** Caso C: [dataset] at the root. *)
Definition casoC (chartPayload : Value) : Outcome Value :=
  let* data := get chartPayload "data" in
  if truthy data then Ok chartPayload else
  let* dataset := get chartPayload "dataset" in
  if negb (truthy dataset) then Ok chartPayload else
  let* labels := get chartPayload "labels" in
  set chartPayload "data"
    (VObj [ ("labels", orElse labels (VArr [])); ("datasets", asArray dataset) ]).

(** Steps 0 to 2: the payload the validation looks at, and its alias. *)
Definition adapt (rawPayload : Value) : Outcome (Value * Alias) :=
  let* st := unwrapping (stringParsingFix rawPayload) in
  let (chartPayload, alias) := st in
  let* chartPayload := casoD chartPayload in
  let* chartPayload := casoA chartPayload in
  let* chartPayload := casoB chartPayload in
  let* chartPayload := casoC chartPayload in
  Ok (chartPayload, alias).

(** [!chartPayload.data || !chartPayload.data.datasets] *)
Definition malformed (chartPayload : Value) : Outcome bool :=
  let* data := get chartPayload "data" in
  if negb (truthy data) then Ok true else
  let* datasets := get data "datasets" in
  Ok (negb (truthy datasets)).

(** Own enumerable properties, as an object spread copies them: an
    array's and a string's are its indices. *)
Definition indexKey (i : nat) : string := NilEmpty.string_of_uint (Nat.to_uint i).

Fixpoint chars (s : string) : list Value :=
  match s with
  | EmptyString => []
  | String c r => VStr (String c EmptyString) :: chars r
  end.

Definition indexed (items : list Value) : list (string * Value) :=
  combine (map indexKey (seq 0 (length items))) items.

Definition ownEntries (v : Value) : list (string * Value) :=
  match v with
  | VObj props => props
  | VArr items => indexed items
  | VStr s => indexed (chars s)
  | VUndefined | VNull | VBool _ | VNum _ => []
  end.

(** An object literal: properties defined left to right. *)
Definition objectLiteral (entries : list (string * Value)) : Value :=
  VObj (fold_left (fun obj e => Rec.set (fst e) (snd e) obj) entries []).

Definition tickFont : Value :=
  VObj [ ("ticks", VObj [ ("font", VObj [ ("size", VNum 9) ]) ]) ].

(** [{ ...options, responsive, maintainAspectRatio, plugins, scales }] *)
Definition chartOptions (options : Value) : Value :=
  objectLiteral
    (ownEntries options ++
     [ ("responsive", VBool true);
       ("maintainAspectRatio", VBool false);
       ("plugins",
        VObj [ ("legend",
                VObj [ ("position", VStr "top");
                       ("labels", VObj [ ("boxWidth", VNum 10);
                                         ("font", VObj [ ("size", VNum 10) ]) ]) ]);
               ("title", VObj [ ("display", VBool false) ]) ]);
       ("scales", VObj [ ("x", tickFont); ("y", tickFont) ]) ]).

(** [type.toLowerCase()]: a method of strings only. *)
Definition toLowerCase (type : Value) : Outcome string :=
  match type with
  | VStr s => Ok (Str.toLowerCase s)
  | _ => Throw TypeError
  end.

(** The [switch] on the chart type, inside its [try]. *)
Definition chartElement (type data options : Value) : Outcome Element :=
  let* chartType := (if truthy type then toLowerCase type else Ok "line") in
  Ok (if String.eqb chartType "line" then LineChart data options
      else if String.eqb chartType "bar" then BarChart data options
      else LineChart data options).

Definition renderChart (rawPayload : Value) : Outcome Element :=
  if negb (truthy rawPayload) then Ok Null else
  let* st := adapt rawPayload in
  let (chartPayload, alias) := st in
  let* bad := malformed chartPayload in
  if bad then Ok (StructureMismatch (rawNow rawPayload alias chartPayload)) else
  let* type := get chartPayload "type" in
  let* data := get chartPayload "data" in
  let* options := get chartPayload "options" in
  Ok (tryCatch (chartElement type data (chartOptions options)) RenderError).

End RenderChart.

(** A fragment of [JSON.parse], enough to run the examples below: it
    decodes five literal texts as [JSON.parse] does and rejects every
    other text, which is what [JSON.parse] does with the texts the
    examples use (the empty text and an unclosed brace). *)
Definition parseLiteral (text : string) : option Value :=
  if String.eqb text "null" then Some VNull
  else if String.eqb text "true" then Some (VBool true)
  else if String.eqb text "false" then Some (VBool false)
  else if String.eqb text "{}" then Some (VObj [])
  else if String.eqb text "[]" then Some (VArr [])
  else None.

End ChatInterface.

(** ** PriceChart.tsx: [ForecastsChart] *)

Module ForecastsChart.

Local Open Scope Q_scope.

Record SeriesConfig := { key : string; color : string }.

Definition seriesConfig : list SeriesConfig :=
  [ {| key := "Spot Price"; color := "#3b82f6" |};
    {| key := "Consumption Forecast"; color := "#ef4444" |};
    {| key := "Solar Panel Forecast"; color := "#f59e0b" |};
    {| key := "Wind Forecast"; color := "#10b981" |} ].

(** The props of one [<Line>] that depend on the series. *)
Record LineProps :=
  { dataKey : string; stroke : string; strokeWidth : Q; strokeOpacity : Q }.

(** [highlightedSeries === s.key] with [highlightedSeries : string | null]. *)
Definition isActive (highlightedSeries : option string) (s : SeriesConfig) : bool :=
  match highlightedSeries with
  | Some h => String.eqb h (key s)
  | None => false
  end.

Definition isDimmed (highlightedSeries : option string) (s : SeriesConfig) : bool :=
  match highlightedSeries with
  | Some _ => negb (isActive highlightedSeries s)
  | None => false
  end.

Definition line (highlightedSeries : option string) (s : SeriesConfig) : LineProps :=
  {| dataKey := key s;
     stroke := color s;
     strokeWidth := if isActive highlightedSeries s then 4 else 2;
     strokeOpacity := if isDimmed highlightedSeries s then 0.15 else 1 |}.

(** [seriesConfig.map(...)] *)
Definition lines (highlightedSeries : option string) : list LineProps :=
  map (line highlightedSeries) seriesConfig.

(** The state [handleLegendClick] sets. *)
Definition handleLegendClick (highlightedSeries : option string) (dataKey : string)
  : option string :=
  match highlightedSeries with
  | Some h => if String.eqb h dataKey then None else Some dataKey
  | None => Some dataKey
  end.

(** *** The rows handed to the chart *)

(** A cell of a row: the hour label, a number, or [undefined]. *)
Inductive Cell :=
| CLabel (text : string)
| CNum (q : Q)
| CUndefined.

(** [`${i}:00`] *)
Definition hourLabel (i : nat) : string :=
  NilEmpty.string_of_uint (Nat.to_uint i) ++ ":00".

(** [forecasts[key][i]] *)
Definition valueAt (series : list Q) (i : nat) : Cell :=
  match nth_error series i with
  | Some q => CNum q
  | None => CUndefined
  end.

(** [entry[key] = value] on a row, an object literal that inherits from
    [Object.prototype], for a value that is a number or [undefined].  The
    name [__proto__] is an accessor the row inherits: its setter drops a
    value that is no object, and the row gets no property.  Every other
    name becomes, or updates, an own property of the row. *)
Definition assign (key : string) (value : Cell) (entry : list (string * Cell))
  : list (string * Cell) :=
  if String.eqb key "__proto__" then entry else Rec.set key value entry.

(** One row: [{ hour }], then [entry[key] = forecasts[key][i]] for each
    key.  [forecasts] lists the object's own properties in [Object.keys]
    order (a decoded JSON object may own one named [__proto__]). *)
Definition entry (forecasts : list (string * list Q)) (i : nat) : list (string * Cell) :=
  fold_left (fun e kv => assign (fst kv) (valueAt (snd kv) i) e) forecasts
            [ ("hour", CLabel (hourLabel i)) ].

(** The [chartData] memo: one row per index of the first series. *)
Definition chartData (forecasts : list (string * list Q)) : list (list (string * Cell)) :=
  match forecasts with
  | [] => []
  | (_, first) :: _ => map (entry forecasts) (seq 0 (length first))
  end.

(** *** The highlight state and what changes it *)

Inductive Event :=
| LegendClick (dataKey : string)   (* a click on a legend item *)
| ResetZoom.                       (* the "Reset Zoom" button *)

(** [useState("Spot Price")] *)
Definition initialHighlight : option string := Some "Spot Price".

Definition step (highlightedSeries : option string) (ev : Event) : option string :=
  match ev with
  | LegendClick dataKey => handleLegendClick highlightedSeries dataKey
  | ResetZoom => None
  end.

End ForecastsChart.

(** ** SparklineChart.tsx *)

Module SparklineChart.

Local Open Scope Q_scope.

(** [Math.min(...data)] and [Math.max(...data)] of a non-empty array. *)
Definition Math_min (d : Q) (rest : list Q) : Q := fold_right Qmin d rest.
Definition Math_max (d : Q) (rest : list Q) : Q := fold_right Qmax d rest.

(** [a || 1] on numbers. *)
Definition orOne (a : Q) : Q := if Qeq_bool a 0 then 1 else a.

(** [a / b] where it is a finite number; [None] stands for NaN and the
    infinities a zero divisor gives. *)
Definition divide (a b : Q) : option Q := if Qeq_bool b 0 then None else Some (a / b).

Definition padding : Q := 4.

(** One element of [points]. *)
Record Point := { x : option Q; y : Q; normalizedValue : Q }.

(** The callback of [data.map]. *)
Definition point (data : list Q) (min range width height : Q) (value : Q) (index : nat)
  : Point :=
  let availableHeight := height - padding * 2 in
  let normalizedValue := (value - min) / range in
  {| x := option_map (fun r => r * width)
                     (divide (inject_Z (Z.of_nat index))
                             (inject_Z (Z.of_nat (length data)) - 1));
     y := height - padding - normalizedValue * availableHeight;
     normalizedValue := normalizedValue |}.

(** [data.map((value, index) => ...)] *)
Fixpoint mapIndexed {A B} (f : A -> nat -> B) (l : list A) (from : nat) : list B :=
  match l with
  | [] => []
  | a :: rest => f a from :: mapIndexed f rest (S from)
  end.

(** [data.findIndex(d => d === maxVal)]; [None] is -1. *)
Fixpoint findIndex (maxVal : Q) (data : list Q) (from : nat) : option nat :=
  match data with
  | [] => None
  | d :: rest => if Qeq_bool d maxVal then Some from else findIndex maxVal rest (S from)
  end.

(** The numbers of the memo: the points and the peak point ([None] for an
    empty array, where the memo returns early).  The path strings are
    printed from the points. *)
Definition points (data : list Q) (width height : Q) : list Point :=
  match data with
  | [] => []
  | d :: rest =>
      let min := Math_min d rest in
      let max := Math_max d rest in
      let range := orOne (max - min) in
      mapIndexed (point data min range width height) data 0
  end.

Definition peakPoint (data : list Q) (width height : Q) : option Point :=
  match data with
  | [] => None
  | d :: rest =>
      match findIndex (Math_max d rest) data 0 with
      | Some maxIndex => nth_error (points data width height) maxIndex
      | None => None
      end
  end.

End SparklineChart.

(** ** Index.tsx: the volatility card *)

Module Index.

(** [s.charAt(0)] and [s.slice(1)] *)
Definition charAt0 (s : string) : string :=
  match s with
  | EmptyString => EmptyString
  | String c _ => String c EmptyString
  end.

Definition slice1 (s : string) : string :=
  match s with
  | EmptyString => EmptyString
  | String _ rest => rest
  end.

(** [level || fallback], with [level] missing while no data is loaded. *)
Definition orText (level : option string) (fallback : string) : string :=
  match level with
  | Some s => if String.eqb s "" then fallback else s
  | None => fallback
  end.

(** The headline of the volatility card. *)
Definition headline (isLoading : bool) (level : option string) : string :=
  if isLoading then "Analyzing..."
  else Str.toUpperCase (charAt0 (orText level "Unknown")) ++ slice1 (orText level "")
       ++ " Volatility".

(** The severity of the volatility card. *)
Definition severity (level : option string) : string :=
  match level with
  | Some s => if String.eqb s "high" then "high"
              else if String.eqb s "normal" then "medium" else "low"
  | None => "low"
  end.

End Index.

(** ** Vocabulary of the specification *)

Module Spec.

Import EuropePriceMap.
Local Open Scope Q_scope.

(** [min(values)] and [max(values)] of a sequence ([0] when empty). *)
Definition lowest (values : list Q) : Q :=
  match values with
  | [] => 0
  | v :: rest => fold_right Qmin v rest
  end.

Definition highest (values : list Q) : Q :=
  match values with
  | [] => 0
  | v :: rest => fold_right Qmax v rest
  end.

(** The percentile indices as the code computes them, in binary64:
    [n] as a float; the floats nearest to 0.05 and 0.95; and the test
    that integer [k] is [Math.floor x], that is [k <= x < k + 1]. *)
Definition binary64 (z : Z) : float := PrimFloat.of_uint63 (Uint63.of_Z z).

Definition float_0_05 : float := 0x1.999999999999ap-5%float.
Definition float_0_95 : float := 0x1.e666666666666p-1%float.

Definition isFloor (x : float) (k : Z) : bool :=
  PrimFloat.leb (binary64 k) x && PrimFloat.ltb x (binary64 (k + 1)).

Definition indicesAgree (n : Z) : bool :=
  isFloor (PrimFloat.mul (binary64 n) float_0_05) (Qfloor (inject_Z n * 0.05))
  && isFloor (PrimFloat.mul (binary64 n) float_0_95) (Qfloor (inject_Z n * 0.95)).

(** The lengths [from], [from + 1], ..., [count] of them. *)
Fixpoint lengthsFrom (count : nat) (from : Z) : list Z :=
  match count with
  | O => []
  | S count' => from :: lengthsFrom count' (from + 1)
  end.

(** Two colours are the same colour: equal hex codes, or equal
    saturation and lightness and hues that are equal as numbers. *)
Definition sameColor (c d : Color) : Prop :=
  match c, d with
  | Hex x, Hex y => x = y
  | Hsl h s l, Hsl h' s' l' => h == h' /\ s = s' /\ l = l'
  | _, _ => False
  end.

(** The two ends of the continuous scale. *)
Definition cheapColor : Color := Hsl 140 80 45.
Definition expensiveColor : Color := Hsl 0 80 45.

(** An entry that contributes to region [iso3]: its price is present and
    its zone resolves to [iso3]. *)
Definition contributes (toUpperCase : string -> string) (iso3 : string)
    (e : string * option Q) : bool :=
  match snd e, resolve toUpperCase (fst e) with
  | Some _, Some r => String.eqb r iso3
  | _, _ => false
  end.

(** The price of the last contributing entry, if there is one. *)
Definition lastPrice (toUpperCase : string -> string) (iso3 : string)
    (entries : list (string * option Q)) : option Q :=
  match find (contributes toUpperCase iso3) (rev entries) with
  | Some e => snd e
  | None => None
  end.

(** Every price that is present is negative. *)
Definition allNegative (hours : HourlyPrices) : Prop :=
  Forall (fun h => Forall (fun e => match snd e with
                                    | Some p => p < 0
                                    | None => True
                                    end) (prices h)) hours.

(** The series of the end-to-end example. *)
Definition endToEndSeries : HourlyPrices :=
  [ {| hour := 12; prices := [ ("DE", Some 50); ("FR", Some (-5)); ("PL", Some 500) ] |} ].

(** *** Chart payloads *)

Import ChatInterface.

(** [null] or [undefined]: the values a property read throws on. *)
Definition nullish (v : Value) : bool :=
  match v with
  | VUndefined | VNull => true
  | _ => false
  end.

(** The value a property read yields when it does not throw. *)
Definition field (v : Value) (key : string) : Value :=
  match v with
  | VObj props => match Rec.get key props with Some x => x | None => VUndefined end
  | _ => VUndefined
  end.

(** The payload is an object whose [data] is an object that holds a
    truthy [datasets]: a series collection is there to draw. *)
Definition exposesSeries (chartPayload : Value) : bool :=
  match chartPayload with
  | VObj props =>
      match Rec.get "data" props with
      | Some (VObj data) =>
          match Rec.get "datasets" data with
          | Some datasets => truthy datasets
          | None => false
          end
      | _ => false
      end
  | _ => false
  end.

(** The element is what the chart [switch] makes of a payload that passed
    the validation: a line or bar chart of its [data] under the decorated
    [options], or the error text when reading the chart type failed. *)
Definition drawnFrom (chartPayload : Value) (el : Element) : Prop :=
  el = LineChart (field chartPayload "data") (chartOptions (field chartPayload "options"))
  \/ el = BarChart (field chartPayload "data") (chartOptions (field chartPayload "options"))
  \/ el = RenderError.

(** The canonical chart of the specification, and the payload that
    carries it in the field names [renderChart] reads. *)
Inductive ChartKind := KLine | KBar.

Record Series := { name : string; values : list Q }.

Record CanonicalChart :=
  { kind : ChartKind; labels : list string; series : list Series; options : Value }.

Definition wellFormed (c : CanonicalChart) : Prop :=
  series c <> []
  /\ Forall (fun s => length (values s) = length (labels c)) (series c).

Definition kindName (k : ChartKind) : string :=
  match k with KLine => "line" | KBar => "bar" end.

Definition seriesValue (s : Series) : Value :=
  VObj [ ("label", VStr (name s)); ("data", VArr (map VNum (values s))) ].

Definition dataValue (c : CanonicalChart) : Value :=
  VObj [ ("labels", VArr (map VStr (labels c)));
         ("datasets", VArr (map seriesValue (series c))) ].

Definition payloadOf (c : CanonicalChart) : Value :=
  VObj [ ("type", VStr (kindName (kind c)));
         ("data", dataValue c);
         ("options", options c) ].

(** The element that draws a canonical chart as it stands. *)
Definition chartOf (c : CanonicalChart) : Element :=
  match kind c with
  | KLine => LineChart (dataValue c) (chartOptions (options c))
  | KBar => BarChart (dataValue c) (chartOptions (options c))
  end.

(** [{ data: { x, y } }] with further properties of [data]. *)
Definition axisPayload (x y : list Value) (more : list (string * Value)) : Value :=
  VObj [ ("data", VObj (("x", VArr x) :: ("y", VArr y) :: more)) ].

(** The [data] Caso D builds from the two axes and a label. *)
Definition axisData (x y : list Value) (label : string) : Value :=
  VObj [ ("labels", VArr x);
         ("datasets", VArr [ VObj [ ("label", VStr label);
                                    ("data", VArr y);
                                    ("borderColor", VStr "rgba(54, 162, 235, 1)");
                                    ("backgroundColor", VStr "rgba(54, 162, 235, 0.2)");
                                    ("borderWidth", VNum 2) ] ]) ].

End Spec.

(** ** EuropePriceMap: the robust range *)

Module RangeFacts.

Import EuropePriceMap Spec.
Local Open Scope Q_scope.

Lemma leb_le (a b : Q) : PriceOrder.leb a b = true <-> a <= b.
Proof.
  unfold PriceOrder.leb, compareFn. rewrite Qle_bool_iff. split; intros H; lra.
Qed.

Lemma sort_length (l : list Q) : length (PriceSort.sort l) = length l.
Proof. symmetry. apply Permutation_length, PriceSort.Permuted_sort. Qed.

Lemma sort_In (l : list Q) (v : Q) : In v (PriceSort.sort l) -> In v l.
Proof.
  intros H. eapply Permutation_in; [ | exact H ].
  apply Permutation_sym, PriceSort.Permuted_sort.
Qed.

Lemma sort_StronglySorted (l : list Q) : StronglySorted Qle (PriceSort.sort l).
Proof.
  assert (T : Transitive (fun x y : Q => is_true (PriceOrder.leb x y))).
  { intros x y z Hxy Hyz. apply leb_le. apply leb_le in Hxy. apply leb_le in Hyz. lra. }
  pose proof (PriceSort.StronglySorted_sort l T) as S.
  induction S as [ | a r S IH F ]; constructor; auto.
  eapply List.Forall_impl; [ | exact F ]. intros b Hb. now apply leb_le.
Qed.

(** In a sorted array a smaller index reads a smaller value. *)
Lemma StronglySorted_nth_error (l : list Q) :
  StronglySorted Qle l ->
  forall i j a b, (i <= j)%nat ->
    nth_error l i = Some a -> nth_error l j = Some b -> a <= b.
Proof.
  induction 1 as [ | x r S IH F ]; intros i j a b Hij Ha Hb.
  - destruct i; discriminate.
  - destruct i as [ | i ], j as [ | j ]; simpl in *.
    + injection Ha as <-. injection Hb as <-. lra.
    + injection Ha as <-. rewrite List.Forall_forall in F.
      apply F. eapply nth_error_In; eauto.
    + lia.
    + eapply IH; [ | eauto | eauto ]. lia.
Qed.

Lemma p5Index_div (n : nat) : p5Index n = Z.to_nat (Z.of_nat n * 5 / 100).
Proof. reflexivity. Qed.

Lemma p95Index_div (n : nat) : p95Index n = Z.to_nat (Z.of_nat n * 95 / 100).
Proof. reflexivity. Qed.

(** Both percentile indices are inside a non-empty array, in order. *)
Lemma index_bounds (n : nat) :
  (0 < n)%nat -> (p5Index n <= p95Index n)%nat /\ (p95Index n < n)%nat.
Proof.
  intros Hn. rewrite p5Index_div, p95Index_div.
  assert (H5 : (0 <= Z.of_nat n * 5 / 100)%Z) by (apply Z.div_pos; lia).
  assert (H59 : (Z.of_nat n * 5 / 100 <= Z.of_nat n * 95 / 100)%Z)
    by (apply Z.div_le_mono; lia).
  assert (H95 : (Z.of_nat n * 95 / 100 < Z.of_nat n)%Z)
    by (apply Z.div_lt_upper_bound; lia).
  lia.
Qed.

(** The exact floors that [p5Index] and [p95Index] take are the ones
    binary64 arithmetic yields, for every array of fewer than 5000 prices (a
    day of hourly prices for some two hundred zones). *)
Lemma indices_match_binary64 : forallb indicesAgree (lengthsFrom 5000 0) = true.
Proof. vm_compute. reflexivity. Qed.

Lemma lowest_le (values : list Q) (v : Q) : In v values -> lowest values <= v.
Proof.
  destruct values as [ | x rest ]; [ intros [] | ]. unfold lowest.
  induction rest as [ | y rest IH ]; simpl.
  - intros [ <- | [] ]. lra.
  - intros [ <- | [ <- | H ] ].
    + eapply Qle_trans; [ apply Q.le_min_r | ]. apply IH. now left.
    + apply Q.le_min_l.
    + eapply Qle_trans; [ apply Q.le_min_r | ]. apply IH. now right.
Qed.

Lemma le_highest (values : list Q) (v : Q) : In v values -> v <= highest values.
Proof.
  destruct values as [ | x rest ]; [ intros [] | ]. unfold highest.
  induction rest as [ | y rest IH ]; simpl.
  - intros [ <- | [] ]. lra.
  - intros [ <- | [ <- | H ] ].
    + eapply Qle_trans; [ | apply Q.le_max_r ]. apply IH. now left.
    + apply Q.le_max_l.
    + eapply Qle_trans; [ | apply Q.le_max_r ]. apply IH. now right.
Qed.

(** On a non-empty array both reads are defined: the two bounds are
    elements of the input, in order. *)
Lemma computeRobustRange_nonempty (values : list Q) :
  values <> [] ->
  exists r, computeRobustRange values = Some r
            /\ In (minPrice r) values /\ In (maxPrice r) values
            /\ minPrice r <= maxPrice r.
Proof.
  intros Hne. unfold computeRobustRange.
  assert (Hlen : (0 < length values)%nat) by (destruct values; [ congruence | simpl; lia ]).
  destruct (Nat.eqb_spec (length values) 0) as [ E | _ ]; [ lia | ].
  cbv zeta. rewrite sort_length.
  destruct (index_bounds (length values) Hlen) as [ H59 H95 ].
  destruct (nth_error (PriceSort.sort values) (p5Index (length values))) as [ lo | ] eqn:Elo.
  2:{ apply nth_error_None in Elo. rewrite sort_length in Elo. lia. }
  destruct (nth_error (PriceSort.sort values) (p95Index (length values))) as [ hi | ] eqn:Ehi.
  2:{ apply nth_error_None in Ehi. rewrite sort_length in Ehi. lia. }
  exists {| minPrice := lo; maxPrice := hi |}. simpl.
  split; [ reflexivity | split; [ | split ] ].
  - apply sort_In. eapply nth_error_In; eauto.
  - apply sort_In. eapply nth_error_In; eauto.
  - exact (StronglySorted_nth_error _ (sort_StronglySorted values) _ _ _ _ H59 Elo Ehi).
Qed.

(** The range computation never reads past the array. *)
Lemma computeRobustRange_total (values : list Q) :
  exists r, computeRobustRange values = Some r.
Proof.
  destruct values as [ | v rest ].
  - eexists. reflexivity.
  - destruct (computeRobustRange_nonempty (v :: rest)) as (r & E & _); [ discriminate | eauto ].
Qed.

(** C6.  For every non-empty sequence of values (in particular of
    non-negative ones) the robust range is defined, its low bound is at
    most its high bound, and both bounds lie between the minimum and the
    maximum of the sequence (they are elements of it); the empty sequence
    gives the fallback range 0..100; a one-element sequence gives that
    element as both bounds. *)
Theorem computeRobustRange_bounds :
  (forall values : list Q, values <> [] ->
     exists r, computeRobustRange values = Some r
               /\ minPrice r <= maxPrice r
               /\ lowest values <= minPrice r
               /\ maxPrice r <= highest values)
  /\ computeRobustRange [] = Some {| minPrice := 0; maxPrice := 100 |}
  /\ (forall v : Q, computeRobustRange [v] = Some {| minPrice := v; maxPrice := v |}).
Proof.
  split; [ | split ].
  - intros values Hne.
    destruct (computeRobustRange_nonempty values Hne) as (r & E & Ilo & Ihi & Hle).
    exists r. repeat split; auto using lowest_le, le_highest.
  - reflexivity.
  - intros v. reflexivity.
Qed.

Lemma computeRobustRange_bounds_witness :
  [3; 1; 2] <> []
  /\ exists r, computeRobustRange [3; 1; 2] = Some r
               /\ minPrice r <= maxPrice r
               /\ lowest [3; 1; 2] <= minPrice r
               /\ maxPrice r <= highest [3; 1; 2].
Proof.
  split; [ discriminate | ].
  apply (proj1 computeRobustRange_bounds [3; 1; 2]). discriminate.
Defined.

End RangeFacts.

(** ** EuropePriceMap: the colour scale *)

Module ColorFacts.

Import EuropePriceMap Spec.
Local Open Scope Q_scope.

Lemma Qltb_false (a b : Q) : b <= a -> Qltb a b = false.
Proof. intros H. unfold Qltb. apply Qle_bool_iff in H. now rewrite H. Qed.

Lemma Qltb_true (a b : Q) : a < b -> Qltb a b = true.
Proof.
  intros H. unfold Qltb. destruct (Qle_bool b a) eqn:E; [ | reflexivity ].
  apply Qle_bool_iff in E. lra.
Qed.

Lemma Qeq_bool_false (a b : Q) : b < a -> Qeq_bool a b = false.
Proof.
  intros H. destruct (Qeq_bool a b) eqn:E; [ | reflexivity ].
  apply Qeq_bool_iff in E. lra.
Qed.

(** The hue the interpolation branch computes. *)
Definition hueAt (price min max : Q) : Q :=
  140 - (Qmin (Qmax price min) max - min) / (max - min) * 140.

(** A negative price gets the fixed colour, whatever the range. *)
Lemma negative_price_color (price min max : Q) :
  price < 0 -> calculateDynamicColor price min max = negativeColor.
Proof. intros H. unfold calculateDynamicColor. now rewrite Qltb_true. Qed.

(** A non-negative price on a proper range is interpolated. *)
Lemma interpolated (price min max : Q) :
  0 <= price -> min < max ->
  calculateDynamicColor price min max = Hsl (hueAt price min max) 80 45.
Proof.
  intros Hp Hr. unfold calculateDynamicColor.
  now rewrite Qltb_false, Qeq_bool_false.
Qed.

(** Clamping keeps the order of prices. *)
Lemma clamp_monotone (a b min max : Q) :
  a <= b -> Qmin (Qmax a min) max <= Qmin (Qmax b min) max.
Proof. intros H. apply Q.min_le_compat_r, Q.max_le_compat_r, H. Qed.

Lemma clamp_range (p min max : Q) :
  min <= max -> min <= Qmin (Qmax p min) max /\ Qmin (Qmax p min) max <= max.
Proof.
  intros H. split; [ | apply Q.le_min_r ].
  apply Q.min_glb; [ apply Q.le_max_r | exact H ].
Qed.

(** The ratio is monotone in the clamped price. *)
Lemma ratio_monotone (x y min max : Q) :
  min < max -> x <= y -> (x - min) / (max - min) <= (y - min) / (max - min).
Proof.
  intros Hr Hxy. unfold Qdiv. apply Qmult_le_compat_r; [ lra | ].
  apply Qinv_le_0_compat. lra.
Qed.

Lemma hueAt_antitone (a b min max : Q) :
  min < max -> a <= b -> hueAt b min max <= hueAt a min max.
Proof.
  intros Hr Hab. unfold hueAt.
  pose proof (ratio_monotone _ _ min max Hr (clamp_monotone a b min max Hab)) as H.
  lra.
Qed.

Lemma hueAt_low (p min max : Q) : min < max -> p <= min -> hueAt p min max == 140.
Proof.
  intros Hr Hp. unfold hueAt.
  rewrite (Q.max_r p min Hp), (Q.min_l min max) by lra.
  unfold Qdiv. ring.
Qed.

Lemma hueAt_high (p min max : Q) : min < max -> max <= p -> hueAt p min max == 0.
Proof.
  intros Hr Hp. unfold hueAt.
  rewrite (Q.max_l p min) by lra. rewrite (Q.min_r p max Hp).
  field. lra.
Qed.

Lemma ratio_bounds (c min max : Q) :
  min < max -> min <= c -> c <= max ->
  0 <= (c - min) / (max - min) /\ (c - min) / (max - min) <= 1.
Proof.
  intros Hr Hlo Hhi.
  pose proof (ratio_monotone min c min max Hr Hlo) as H0.
  pose proof (ratio_monotone c max min max Hr Hhi) as H1.
  assert (E0 : (min - min) / (max - min) == 0) by (unfold Qdiv; ring).
  assert (E1 : (max - min) / (max - min) == 1) by (field; lra).
  lra.
Qed.

Lemma hueAt_bounds (p min max : Q) :
  min < max -> 0 <= hueAt p min max /\ hueAt p min max <= 140.
Proof.
  intros Hr. unfold hueAt.
  destruct (clamp_range p min max) as [ Hlo Hhi ]; [ lra | ].
  destruct (ratio_bounds _ min max Hr Hlo Hhi). lra.
Qed.

(** C7.  The continuous scale is monotone.  The scale is what the
    function does "otherwise", once the guard for a negative price has
    been passed: its prices are not negative.  On a range with low < high,
    for such prices a <= b inside the range, both colours are on the scale
    and the hue of b is at most the hue of a (hue 140 is the cheap end,
    hue 0 the expensive red end), both hues staying within 0..140; such a
    price at or below low gets the cheap end colour and one at or above
    high gets the expensive end colour.  A negative price gets the fixed
    colour of the guard, whatever the range.  So on a range whose low
    bound is not negative, as every range of the memo is, the order of
    hues holds for all prices a <= b inside the range. *)
Theorem colorFor_monotone (range : PriceRange) :
  minPrice range < maxPrice range ->
  (forall a b : Q,
      0 <= a -> minPrice range <= a -> a <= b -> b <= maxPrice range ->
      exists ha hb,
        colorFor a range = Hsl ha 80 45 /\ colorFor b range = Hsl hb 80 45
        /\ hb <= ha /\ 0 <= hb /\ ha <= 140)
  /\ (forall p : Q, 0 <= p -> p <= minPrice range ->
        sameColor (colorFor p range) cheapColor)
  /\ (forall p : Q, 0 <= p -> maxPrice range <= p ->
        sameColor (colorFor p range) expensiveColor)
  /\ (forall p : Q, p < 0 -> colorFor p range = negativeColor)
  /\ (0 <= minPrice range ->
      forall a b : Q,
        minPrice range <= a -> a <= b -> b <= maxPrice range ->
        exists ha hb,
          colorFor a range = Hsl ha 80 45 /\ colorFor b range = Hsl hb 80 45
          /\ hb <= ha /\ 0 <= hb /\ ha <= 140).
Proof.
  intros Hr. unfold colorFor. split; [ | split; [ | split; [ | split ] ] ].
  - intros a b Ha Hlo Hab Hhi.
    exists (hueAt a (minPrice range) (maxPrice range)),
           (hueAt b (minPrice range) (maxPrice range)).
    rewrite !interpolated by lra.
    repeat split; try apply hueAt_antitone; try apply hueAt_bounds; auto.
  - intros p Hp Hlo. rewrite interpolated by lra. simpl.
    split; [ now apply hueAt_low | split; reflexivity ].
  - intros p Hp Hhi. rewrite interpolated by lra. simpl.
    split; [ now apply hueAt_high | split; reflexivity ].
  - intros p Hp. now apply negative_price_color.
  - intros H0 a b Hlo Hab Hhi.
    exists (hueAt a (minPrice range) (maxPrice range)),
           (hueAt b (minPrice range) (maxPrice range)).
    rewrite !interpolated by lra.
    repeat split; try apply hueAt_antitone; try apply hueAt_bounds; auto.
Qed.

Lemma colorFor_monotone_witness :
  exists ha hb,
    colorFor 20 {| minPrice := 10; maxPrice := 50 |} = Hsl ha 80 45
    /\ colorFor 40 {| minPrice := 10; maxPrice := 50 |} = Hsl hb 80 45
    /\ hb <= ha /\ 0 <= hb /\ ha <= 140.
Proof.
  refine (proj1 (colorFor_monotone {| minPrice := 10; maxPrice := 50 |} _) 20 40 _ _ _ _);
    simpl; lra.
Defined.

(** C10.  When every price that is present is negative, nothing is
    collected and the range is the fallback 0..100, whatever the state
    flag; the scale then colours a price from the fallback bounds. *)
Theorem robustRange_all_negative (hours : HourlyPrices) (hasData : bool) :
  allNegative hours ->
  robustRange (Some hours) hasData = Some {| minPrice := 0; maxPrice := 100 |}
  /\ robustRange (Some hours) hasData = robustRange (Some []) hasData
  /\ allPrices hours = []
  /\ forall price range,
       robustRange (Some hours) hasData = Some range ->
       colorFor price range = calculateDynamicColor price 0 100.
Proof.
  intros Hneg.
  assert (E : allPrices hours = []).
  { unfold allPrices. induction Hneg as [ | h rest Hh _ IH ]; [ reflexivity | ].
    simpl. rewrite IH, app_nil_r. clear IH.
    induction Hh as [ | e es He _ IHe ]; [ reflexivity | ].
    simpl. rewrite IHe, app_nil_r.
    destruct (snd e) as [ p | ]; [ | reflexivity ].
    destruct (Qle_bool 0 p) eqn:Ep; [ | reflexivity ].
    apply Qle_bool_iff in Ep. lra. }
  assert (R : robustRange (Some hours) hasData = Some {| minPrice := 0; maxPrice := 100 |}).
  { unfold robustRange. rewrite E. now destruct hasData. }
  repeat split; auto.
  - rewrite R. now destruct hasData.
  - intros price range. rewrite R. now intros [= <-].
Qed.

Lemma robustRange_all_negative_witness :
  robustRange (Some [ {| hour := 3; prices := [ ("DE", Some (-12)); ("FR", None) ] |} ]) true
  = Some {| minPrice := 0; maxPrice := 100 |}.
Proof.
  apply (robustRange_all_negative
           [ {| hour := 3; prices := [ ("DE", Some (-12)); ("FR", None) ] |} ] true).
  repeat constructor.
Defined.

(** The end-to-end series collects two prices, 50 and 500, so its range
    is 50..500 and 50 is not coloured with the degenerate hue. *)
Lemma endToEnd_range_not_degenerate :
  robustRange (Some endToEndSeries) (hasValidPrices endToEndSeries)
  = Some {| minPrice := 50; maxPrice := 500 |}
  /\ allPrices endToEndSeries = [50; 500]
  /\ colorFor 50 {| minPrice := 50; maxPrice := 500 |} <> degenerateColor.
Proof. repeat split. discriminate. Qed.

(** C1, as the code has it.  The end-to-end series (DE 50, FR -5, PL 500
    at hour 12) has data; its robust range is 50..500 (the two
    non-negative prices, indices 0 and 1 of the sorted pair); on that
    range 50 gets the cheap end of the scale, 500 the expensive end, and
    -5 the fixed negative colour; on a range 50..50 the colour of 50 is the
    degenerate hue. *)
Theorem endToEnd :
  hasValidPrices endToEndSeries = true
  /\ exists range,
       robustRange (Some endToEndSeries) (hasValidPrices endToEndSeries) = Some range
       /\ range = {| minPrice := 50; maxPrice := 500 |}
       /\ sameColor (colorFor 50 range) cheapColor
       /\ sameColor (colorFor 500 range) expensiveColor
       /\ colorFor (-5) range = negativeColor
       /\ colorFor 50 {| minPrice := 50; maxPrice := 50 |} = degenerateColor.
Proof.
  split; [ reflexivity | ].
  exists {| minPrice := 50; maxPrice := 500 |}.
  repeat split; reflexivity.
Qed.

End ColorFacts.

(** ** EuropePriceMap: the per-hour price map *)

Module PriceMapFacts.

Import EuropePriceMap Spec.
Local Open Scope list_scope.
Local Open Scope Q_scope.

Lemma find_first {A} (f : A -> bool) (before : list A) (x : A) (after : list A) :
  Forall (fun y => f y = false) before -> f x = true ->
  find f (before ++ x :: after) = Some x.
Proof.
  induction 1 as [ | y ys Hy _ IH ]; intros Hx; simpl.
  - now rewrite Hx.
  - rewrite Hy. now apply IH.
Qed.

Lemma find_none {A} (f : A -> bool) (l : list A) :
  Forall (fun y => f y = false) l -> find f l = None.
Proof. induction 1 as [ | y ys Hy _ IH ]; simpl; [ | rewrite Hy ]; auto. Qed.

Lemma other_hours (selectedHour : Z) (l : list HourData) :
  Forall (fun h => hour h <> selectedHour) l ->
  Forall (fun h => Z.eqb (hour h) selectedHour = false) l.
Proof.
  intros H. eapply List.Forall_impl; [ | exact H ].
  intros h Hh. now apply Z.eqb_neq.
Qed.

(** On ASCII text the runtime's conversion is [Str.toUpperCase], and the
    codes of the table are found in either case. *)
Lemma resolve_ascii_examples :
  resolve Str.toUpperCase "de" = Some "DEU"
  /\ resolve Str.toUpperCase "De" = Some "DEU"
  /\ resolve Str.toUpperCase "no2" = Some "NOR"
  /\ resolve Str.toUpperCase "xx" = None.
Proof. repeat split. Qed.

Section Lookup.

Variable toUpperCase : string -> string.

(** The zone table is read through [toUpperCase]. *)
Lemma resolve_case_insensitive (z z' : string) :
  toUpperCase z = toUpperCase z' -> resolve toUpperCase z = resolve toUpperCase z'.
Proof. unfold resolve. now intros ->. Qed.

(** An entry contributes when its price is there and the upper-cased
    zone is a key of the table for that region. *)
Lemma contributes_false (iso3 : string) (e : string * option Q) :
  contributes toUpperCase iso3 e = false <->
  snd e = None \/ Rec.get (toUpperCase (fst e)) ZONE_TO_ISO3 <> Some iso3.
Proof.
  unfold contributes, resolve.
  destruct (snd e) as [ val | ]; [ | intuition ].
  destruct (Rec.get (toUpperCase (fst e)) ZONE_TO_ISO3) as [ r | ].
  - destruct (String.eqb_spec r iso3) as [ -> | Hne ].
    + split; [ discriminate | ]. intros [ H | H ]; [ discriminate | congruence ].
    + split; [ | reflexivity ]. intros _. right. congruence.
  - split; [ | reflexivity ]. intros _. right. discriminate.
Qed.

(** One step of the loop, seen from one region. *)
Lemma priceMapStep_lookup (m : gmap string Q) (e : string * option Q) (iso3 : string) :
  priceMapStep toUpperCase m e !! iso3
  = if contributes toUpperCase iso3 e then snd e else m !! iso3.
Proof.
  unfold priceMapStep, contributes.
  destruct (snd e) as [ val | ]; [ | reflexivity ].
  destruct (resolve toUpperCase (fst e)) as [ r | ]; [ | reflexivity ].
  destruct (String.eqb_spec r iso3) as [ -> | Hne ].
  - apply lookup_insert_eq.
  - now apply lookup_insert_ne.
Qed.

(** The whole loop, seen from one region: the last contributing entry
    decides, and a region without one keeps what the map held. *)
Lemma fold_lookup (entries : list (string * option Q)) (m : gmap string Q) (iso3 : string) :
  fold_left (priceMapStep toUpperCase) entries m !! iso3
  = match find (contributes toUpperCase iso3) (rev entries) with
    | Some e => snd e
    | None => m !! iso3
    end.
Proof.
  induction entries as [ | e entries IH ] using rev_ind; [ reflexivity | ].
  rewrite fold_left_app, rev_unit. simpl.
  rewrite priceMapStep_lookup.
  destruct (contributes toUpperCase iso3 e); [ reflexivity | apply IH ].
Qed.

(** [lastPrice] in words: the entries split around a contributing entry
    after which no entry contributes. *)
Lemma lastPrice_Some (iso3 : string) (entries : list (string * option Q)) (v : Q) :
  lastPrice toUpperCase iso3 entries = Some v <->
  exists pre zone post,
    entries = pre ++ (zone, Some v) :: post
    /\ resolve toUpperCase zone = Some iso3
    /\ Forall (fun e => contributes toUpperCase iso3 e = false) post.
Proof.
  unfold lastPrice. induction entries as [ | e entries IH ] using rev_ind.
  - simpl. split; [ discriminate | ].
    intros (pre & zone & post & E & _). destruct pre; discriminate.
  - rewrite rev_unit. simpl. destruct (contributes toUpperCase iso3 e) eqn:C.
    + split.
      * intros Hv. destruct e as [ zone p ]. simpl in Hv. subst p.
        exists entries, zone, []. repeat split; [ | constructor ].
        unfold contributes in C. simpl in C.
        destruct (resolve toUpperCase zone) as [ r | ]; [ | discriminate ].
        now apply String.eqb_eq in C as ->.
      * intros (pre & zone & post & E & R & F).
        destruct post as [ | q post _ ] using rev_ind.
        -- apply app_inj_tail in E as [ _ -> ]. reflexivity.
        -- rewrite app_comm_cons, app_assoc in E.
           apply app_inj_tail in E as [ _ -> ].
           apply Forall_app in F as [ _ F ]. inversion F; congruence.
    + rewrite IH. split.
      * intros (pre & zone & post & -> & R & F).
        exists pre, zone, (post ++ [e]). rewrite <- app_assoc. repeat split; auto.
        apply Forall_app. split; [ exact F | repeat constructor; exact C ].
      * intros (pre & zone & post & E & R & F).
        destruct post as [ | q post _ ] using rev_ind.
        -- apply app_inj_tail in E as [ _ -> ].
           unfold contributes in C. simpl in C. rewrite R, String.eqb_refl in C. discriminate.
        -- rewrite app_comm_cons, app_assoc in E.
           apply app_inj_tail in E as [ -> _ ].
           apply Forall_app in F as [ F _ ]. exists pre, zone, post. auto.
Qed.

(** The same, with resolution and contribution written out on the table. *)
Lemma lastPrice_table (iso3 : string) (entries : list (string * option Q)) (v : Q) :
  lastPrice toUpperCase iso3 entries = Some v <->
  exists pre zone post,
    entries = pre ++ (zone, Some v) :: post
    /\ Rec.get (toUpperCase zone) ZONE_TO_ISO3 = Some iso3
    /\ Forall (fun e => snd e = None
                        \/ Rec.get (toUpperCase (fst e)) ZONE_TO_ISO3 <> Some iso3) post.
Proof.
  rewrite lastPrice_Some. split; intros (pre & zone & post & E & R & F);
    exists pre, zone, post; (split; [ exact E | split; [ exact R | ] ]);
    (eapply List.Forall_impl; [ | exact F ]); intros e; apply contributes_false.
Qed.

(** A zone written with the ligature U+FB01, which the runtime upper-cases
    to "FI": the snapshot gives Finland its price. *)
Lemma ligature_zone :
  toUpperCase "ﬁ" = "FI" -> toUpperCase "DE" = "DE" ->
  priceMap toUpperCase
    (Some [ {| hour := 0; prices := [ ("ﬁ", Some 33); ("DE", Some 1) ] |} ]) 0 !! "FIN"
  = Some 33.
Proof.
  intros Hfi Hde. unfold priceMap. simpl. rewrite !priceMapStep_lookup.
  unfold contributes, resolve. simpl. now rewrite Hde, Hfi.
Qed.

End Lookup.

(** C8.  Before any series is loaded, and when no snapshot has the
    selected hour, the map is empty.
    Otherwise, for the first snapshot with that hour, the map holds price
    [v] for region [iso3] exactly when some entry of the snapshot has a
    present price [v] and a zone that resolves to [iso3], and no later
    entry of the snapshot has a present price and a zone that resolves to
    [iso3]: the later entry wins.  A zone resolves to the region the table
    gives for its upper-case form, whatever the case it is written in; the
    statement holds for every upper-casing function, so for the runtime's
    on zone codes of any content. *)
Theorem priceMap_forHour (toUpperCase : string -> string)
    (hours : HourlyPrices) (selectedHour : Z) :
  priceMap toUpperCase None selectedHour = ∅
  /\ (Forall (fun h => hour h <> selectedHour) hours ->
     priceMap toUpperCase (Some hours) selectedHour = ∅)
  /\ (forall before hourObj after,
        hours = before ++ hourObj :: after ->
        Forall (fun h => hour h <> selectedHour) before ->
        hour hourObj = selectedHour ->
        forall iso3 v,
          priceMap toUpperCase (Some hours) selectedHour !! iso3 = Some v <->
          exists pre zone post,
            prices hourObj = pre ++ (zone, Some v) :: post
            /\ Rec.get (toUpperCase zone) ZONE_TO_ISO3 = Some iso3
            /\ Forall (fun e => snd e = None
                                \/ Rec.get (toUpperCase (fst e)) ZONE_TO_ISO3 <> Some iso3)
                      post).
Proof.
  split; [ reflexivity | split ].
  - intros H. unfold priceMap. now rewrite (find_none _ _ (other_hours _ _ H)).
  - intros before hourObj after -> Hb Hh iso3 v. unfold priceMap.
    rewrite (find_first _ _ _ _ (other_hours _ _ Hb)) by now apply Z.eqb_eq.
    rewrite fold_lookup, lookup_empty. apply lastPrice_table.
Qed.

(** On ASCII zone codes, with the ASCII conversion: "GB" and "uk" both
    resolve to GBR, in either case, and the later of the two wins. *)
Lemma priceMap_forHour_witness :
  priceMap Str.toUpperCase
    (Some [ {| hour := 7; prices := [ ("GB", Some 40); ("XX", Some 1); ("uk", Some 42) ] |} ]) 7
    !! "GBR" = Some 42.
Proof.
  apply (proj2 (proj2 (priceMap_forHour Str.toUpperCase
                  [ {| hour := 7; prices := [ ("GB", Some 40); ("XX", Some 1); ("uk", Some 42) ] |} ] 7))
               [] _ [] eq_refl (List.Forall_nil _) eq_refl "GBR" 42).
  exists [ ("GB", Some 40); ("XX", Some 1) ], "uk", [].
  repeat split. constructor.
Defined.

End PriceMapFacts.

(** ** ChatInterface: [renderChart] *)

Module ChatFacts.

Import ChatInterface Spec.
Local Open Scope list_scope.
Local Open Scope Q_scope.

(** *** Property lists *)

Lemma get_set_same {A} (key : string) (v : A) (obj : list (string * A)) :
  Rec.get key (Rec.set key v obj) = Some v.
Proof.
  induction obj as [ | [ k w ] obj IH ]; simpl.
  - now rewrite String.eqb_refl.
  - destruct (String.eqb k key) eqn:E; simpl; rewrite E; auto.
Qed.

(** Writing back what a property already holds changes nothing. *)
Lemma set_same {A} (key : string) (v : A) (obj : list (string * A)) :
  Rec.get key obj = Some v -> Rec.set key v obj = obj.
Proof.
  induction obj as [ | [ k w ] obj IH ]; simpl; [ discriminate | ].
  destruct (String.eqb k key) eqn:E.
  - now intros [= ->].
  - intros H. now rewrite IH.
Qed.

(** *** Reads and truthiness *)

Lemma get_field (v : Value) (key : string) :
  nullish v = false -> get v key = Ok (field v key).
Proof. destruct v; simpl; intros; congruence. Qed.

Lemma get_nullish (v : Value) (key : string) :
  nullish v = true -> get v key = Throw TypeError.
Proof. destruct v; simpl; intros; congruence. Qed.

Lemma truthy_nullish (v : Value) : truthy v = true -> nullish v = false.
Proof. destruct v; simpl; intros; congruence. Qed.

(** Only an object has a truthy property. *)
Lemma truthy_field (v : Value) (key : string) :
  truthy (field v key) = true -> exists props, v = VObj props.
Proof. destruct v; simpl; try discriminate. eauto. Qed.

Lemma truthy_asArray (v : Value) : truthy (asArray v) = true.
Proof. unfold asArray. now destruct v. Qed.

Lemma exposesSeries_field (cp : Value) :
  exposesSeries cp = truthy (field cp "data") && truthy (field (field cp "data") "datasets").
Proof.
  destruct cp as [ | | | | | | props ]; try reflexivity. simpl.
  destruct (Rec.get "data" props) as [ d | ]; [ | reflexivity ].
  destruct d as [ | | b | q | s | items | data ]; simpl;
    rewrite ?andb_false_r; try reflexivity.
  now destruct (Rec.get "datasets" data).
Qed.

Lemma exposesSeries_nullish (cp : Value) : exposesSeries cp = true -> nullish cp = false.
Proof. destruct cp; simpl; congruence. Qed.

(** *** The adaptation rules, one at a time *)

Section Rules.

Variable JSON_parse : string -> option Value.

(** What every rule guarantees on a payload it can read: it completes, and
    it either leaves the payload as it is or leaves it exposing a series. *)
Definition ruleOk (rule : Value -> Outcome Value) : Prop :=
  forall cp, nullish cp = false ->
    exists cp', rule cp = Ok cp' /\ (cp' = cp \/ exposesSeries cp' = true).

Ltac untouched := eexists; split; [ reflexivity | now left ].

Ltac rewritten :=
  eexists; split; [ reflexivity | right ];
  unfold exposesSeries; rewrite get_set_same; simpl;
  rewrite ?get_set_same; auto using truthy_asArray.

Lemma casoD_ok : ruleOk casoD.
Proof.
  intros cp Hcp. unfold casoD. rewrite (get_field cp) by assumption. simpl.
  destruct (truthy (field cp "data")) eqn:Td; simpl; [ | untouched ].
  rewrite !(get_field (field cp "data")) by now apply truthy_nullish. simpl.
  destruct (isArray (field (field cp "data") "x")); simpl; [ | untouched ].
  destruct (isArray (field (field cp "data") "y")); simpl; [ | untouched ].
  destruct (truthy_field _ _ Td) as [ props -> ]. simpl. rewritten.
Qed.

Lemma casoA_ok : ruleOk casoA.
Proof.
  intros cp Hcp. unfold casoA. rewrite !(get_field cp) by assumption. simpl.
  destruct (truthy (field cp "data")) eqn:Td; simpl; [ untouched | ].
  destruct (truthy (field cp "datasets")) eqn:Ts; simpl; [ | untouched ].
  destruct (truthy_field _ _ Ts) as [ props -> ]. simpl. rewritten.
Qed.

Lemma casoB_ok : ruleOk casoB.
Proof.
  intros cp Hcp. unfold casoB. rewrite (get_field cp) by assumption. simpl.
  destruct (truthy (field cp "data")) eqn:Td; simpl; [ | untouched ].
  rewrite !(get_field (field cp "data")) by now apply truthy_nullish. simpl.
  destruct (truthy (field (field cp "data") "dataset")) eqn:T1; simpl; [ | untouched ].
  destruct (truthy (field (field cp "data") "datasets")) eqn:Ts; simpl; [ untouched | ].
  destruct (truthy_field _ _ T1) as [ data Ed ].
  destruct (truthy_field _ _ Td) as [ props -> ].
  rewrite Ed. simpl. rewritten.
Qed.

Lemma casoC_ok : ruleOk casoC.
Proof.
  intros cp Hcp. unfold casoC. rewrite !(get_field cp) by assumption. simpl.
  destruct (truthy (field cp "data")) eqn:Td; simpl; [ untouched | ].
  destruct (truthy (field cp "dataset")) eqn:T1; simpl; [ | untouched ].
  destruct (truthy_field _ _ T1) as [ props -> ]. simpl. rewritten.
Qed.

(** Two rules in a row keep the guarantee. *)
Lemma ruleOk_then (r1 r2 : Value -> Outcome Value) :
  ruleOk r1 -> ruleOk r2 -> ruleOk (fun cp => bind (r1 cp) r2).
Proof.
  intros H1 H2 cp Hcp.
  destruct (H1 cp Hcp) as (cp1 & E1 & D1). rewrite E1. simpl.
  assert (N1 : nullish cp1 = false)
    by (destruct D1 as [ -> | D1 ]; auto using exposesSeries_nullish).
  destruct (H2 cp1 N1) as (cp2 & E2 & D2). exists cp2. split; [ exact E2 | ].
  destruct D2 as [ -> | D2 ]; auto.
Qed.

(** *** Decoding and unwrapping *)

(** How the payload under adaptation sits in [rawPayload]. *)
Definition aliasOk (rawPayload chartPayload : Value) (alias : Alias) : Prop :=
  match alias with
  | Detached => True
  | Whole => chartPayload = rawPayload
  | Inner => exists props, rawPayload = VObj props
                           /\ Rec.get "chart_data" props = Some chartPayload
  end.

(** With no write to [chartPayload], [rawPayload] reads as it did. *)
Lemma rawNow_untouched (rawPayload chartPayload : Value) (alias : Alias) :
  aliasOk rawPayload chartPayload alias -> rawNow rawPayload alias chartPayload = rawPayload.
Proof.
  destruct alias; simpl; auto.
  intros (props & -> & E). now rewrite set_same.
Qed.

Lemma stringParsingFix_alias (rawPayload : Value) :
  aliasOk rawPayload (fst (stringParsingFix JSON_parse rawPayload))
          (snd (stringParsingFix JSON_parse rawPayload)).
Proof.
  destruct rawPayload; simpl; auto.
  destruct (JSON_parse s); simpl; auto.
Qed.

Lemma unwrapping_ok (rawPayload : Value) :
  nullish (fst (stringParsingFix JSON_parse rawPayload)) = false ->
  exists cp alias,
    unwrapping (stringParsingFix JSON_parse rawPayload) = Ok (cp, alias)
    /\ nullish cp = false /\ aliasOk rawPayload cp alias.
Proof.
  intros Hn. pose proof (stringParsingFix_alias rawPayload) as Ha.
  destruct (stringParsingFix JSON_parse rawPayload) as [ cp0 alias0 ]. simpl in *.
  rewrite get_field by assumption. simpl.
  destruct (truthy (field cp0 "chart_data")) eqn:T.
  - eexists _, _. split; [ reflexivity | ]. split; [ now apply truthy_nullish | ].
    destruct alias0; simpl in *; auto. subst cp0.
    destruct rawPayload as [ | | | | | | props ]; try discriminate.
    exists props. split; [ reflexivity | ]. simpl in T |- *.
    now destruct (Rec.get "chart_data" props).
  - eexists _, _. auto.
Qed.

(** *** The whole adaptation *)

Lemma adapt_ok (rawPayload : Value) :
  nullish (fst (stringParsingFix JSON_parse rawPayload)) = false ->
  exists cp alias,
    adapt JSON_parse rawPayload = Ok (cp, alias)
    /\ nullish cp = false
    /\ (exposesSeries cp = true \/ rawNow rawPayload alias cp = rawPayload).
Proof.
  intros Hn. destruct (unwrapping_ok rawPayload Hn) as (cp0 & alias & E & N0 & Ha).
  unfold adapt. rewrite E. simpl.
  pose proof (ruleOk_then _ _ casoD_ok
                (ruleOk_then _ _ casoA_ok (ruleOk_then _ _ casoB_ok casoC_ok))) as R.
  destruct (R cp0 N0) as (cp & Ecp & D). simpl in Ecp.
  exists cp, alias. split.
  - destruct (casoD cp0) as [ c1 | ]; simpl in *; [ | discriminate ].
    destruct (casoA c1) as [ c2 | ]; simpl in *; [ | discriminate ].
    destruct (casoB c2) as [ c3 | ]; simpl in *; [ | discriminate ].
    destruct (casoC c3) as [ c4 | ]; simpl in *; [ | discriminate ].
    congruence.
  - destruct D as [ -> | D ].
    + split; [ assumption | right; now apply rawNow_untouched ].
    + split; [ now apply exposesSeries_nullish | now left ].
Qed.

Lemma malformed_exposes (cp : Value) :
  nullish cp = false -> malformed cp = Ok (negb (exposesSeries cp)).
Proof.
  intros Hn. unfold malformed. rewrite get_field by assumption. simpl.
  rewrite exposesSeries_field.
  destruct (truthy (field cp "data")) eqn:Td; simpl; [ | reflexivity ].
  rewrite get_field by now apply truthy_nullish. reflexivity.
Qed.

(** The chart [switch] never escapes its [try]. *)
Lemma chartElement_caught (type data options : Value) :
  tryCatch (chartElement type data options) RenderError = LineChart data options
  \/ tryCatch (chartElement type data options) RenderError = BarChart data options
  \/ tryCatch (chartElement type data options) RenderError = RenderError.
Proof.
  unfold chartElement. destruct (truthy type); simpl; [ | now left ].
  destruct type; simpl; auto.
  destruct (String.eqb _ "line"); [ now left | ].
  destruct (String.eqb _ "bar"); auto.
Qed.

(** *** What [renderChart] returns *)

(** A falsy payload renders nothing. *)
Lemma renderChart_falsy (rawPayload : Value) :
  truthy rawPayload = false -> renderChart JSON_parse rawPayload = Ok Null.
Proof. intros H. unfold renderChart. now rewrite H. Qed.

(** A truthy payload that decodes to something readable: the outcome is
    decided by whether the adapted payload exposes a series, and the
    diagnostic block prints the payload as it was received. *)
Lemma renderChart_readable (rawPayload : Value) :
  truthy rawPayload = true ->
  nullish (fst (stringParsingFix JSON_parse rawPayload)) = false ->
  exists cp alias,
    adapt JSON_parse rawPayload = Ok (cp, alias)
    /\ if exposesSeries cp
       then exists el, renderChart JSON_parse rawPayload = Ok el /\ drawnFrom cp el
       else renderChart JSON_parse rawPayload = Ok (StructureMismatch rawPayload).
Proof.
  intros Ht Hn. destruct (adapt_ok rawPayload Hn) as (cp & alias & E & N & D).
  exists cp, alias. split; [ exact E | ].
  unfold renderChart. rewrite Ht, E. simpl.
  rewrite malformed_exposes by assumption. simpl.
  destruct (exposesSeries cp) eqn:X; simpl.
  - rewrite !get_field by assumption. simpl.
    eexists. split; [ reflexivity | apply chartElement_caught ].
  - destruct D as [ D | -> ]; [ discriminate | reflexivity ].
Qed.

(** The one way [renderChart] throws: a text that decodes to [null]
    (or to [undefined], which no JSON text does). *)
Lemma renderChart_throws_only_on_null (rawPayload : Value) (e : Exception) :
  renderChart JSON_parse rawPayload = Throw e <->
  truthy rawPayload = true
  /\ nullish (fst (stringParsingFix JSON_parse rawPayload)) = true.
Proof.
  split.
  - intros H. destruct (truthy rawPayload) eqn:Ht.
    + split; [ reflexivity | ].
      destruct (nullish (fst (stringParsingFix JSON_parse rawPayload))) eqn:Hn; [ reflexivity | ].
      destruct (renderChart_readable rawPayload Ht Hn) as (cp & alias & _ & R).
      destruct (exposesSeries cp); [ destruct R as (el & R & _) | ]; congruence.
    + rewrite renderChart_falsy in H by assumption. discriminate.
  - intros [ Ht Hn ]. unfold renderChart, adapt. rewrite Ht. simpl.
    destruct (stringParsingFix JSON_parse rawPayload) as [ cp0 alias0 ]. simpl in *.
    rewrite get_nullish by assumption. now destruct e.
Qed.

End Rules.

(** *** The claims about [renderChart] *)

(** The empty text is not JSON, and it renders nothing: no diagnostic
    block, no raw content. *)
Lemma empty_text_renders_nothing :
  parseLiteral "" = None
  /\ renderChart parseLiteral (VStr "") = Ok Null.
Proof. split; reflexivity. Qed.

(** C2, as the code has it.  A text payload that [JSON.parse] rejects is
    never thrown further up: the empty text renders nothing, and any other
    such text passes the rules untouched and ends in the diagnostic block
    (the one failure rendering the code has, titled "Structure mismatch")
    that prints the text as received. *)
Theorem renderChart_unparseable (JSON_parse : string -> option Value) (s : string) :
  JSON_parse s = None ->
  renderChart JSON_parse (VStr s)
  = Ok (if String.eqb s "" then Null else StructureMismatch (VStr s)).
Proof.
  intros Hs. unfold renderChart, adapt, stringParsingFix. simpl.
  destruct (String.eqb s ""); simpl; [ reflexivity | ].
  rewrite Hs. reflexivity.
Qed.

Lemma renderChart_unparseable_witness :
  renderChart parseLiteral (VStr "{bad") = Ok (StructureMismatch (VStr "{bad")).
Proof. apply (renderChart_unparseable parseLiteral "{bad"). reflexivity. Defined.

(** A payload whose series collection is empty, and one whose only series
    has two values against one label, are both drawn. *)
Lemma empty_and_ragged_series_are_drawn :
  renderChart parseLiteral
    (VObj [ ("data", VObj [ ("labels", VArr [ VStr "a" ]); ("datasets", VArr []) ]) ])
  = Ok (LineChart (VObj [ ("labels", VArr [ VStr "a" ]); ("datasets", VArr []) ])
                  (chartOptions VUndefined))
  /\ renderChart parseLiteral
       (VObj [ ("data", VObj [ ("labels", VArr [ VStr "a" ]);
                               ("datasets",
                                VArr [ VObj [ ("label", VStr "s");
                                              ("data", VArr [ VNum 1; VNum 2 ]) ] ]) ]) ])
     = Ok (LineChart (VObj [ ("labels", VArr [ VStr "a" ]);
                             ("datasets",
                              VArr [ VObj [ ("label", VStr "s");
                                            ("data", VArr [ VNum 1; VNum 2 ]) ] ]) ])
                     (chartOptions VUndefined)).
Proof. split; reflexivity. Qed.

(** C3, as the code has it.  For every truthy payload whose decoded value
    is not [null], [renderChart] completes without throwing; once the
    rules have run it returns the diagnostic block, printing the payload
    exactly as received, when the adapted payload lacks a truthy [data]
    or a truthy [data.datasets], and otherwise goes on to draw (neither
    the emptiness of the collection nor any length is looked at).  The
    empty object gets the diagnostic block. *)
Theorem renderChart_validation (JSON_parse : string -> option Value) :
  (forall rawPayload,
      truthy rawPayload = true ->
      nullish (fst (stringParsingFix JSON_parse rawPayload)) = false ->
      exists chartPayload alias,
        adapt JSON_parse rawPayload = Ok (chartPayload, alias)
        /\ if exposesSeries chartPayload
           then exists el, renderChart JSON_parse rawPayload = Ok el
                           /\ drawnFrom chartPayload el
           else renderChart JSON_parse rawPayload = Ok (StructureMismatch rawPayload))
  /\ renderChart JSON_parse (VObj []) = Ok (StructureMismatch (VObj [])).
Proof.
  split; [ | reflexivity ].
  intros rawPayload Ht Hn. now apply renderChart_readable.
Qed.

Lemma renderChart_validation_witness :
  exists chartPayload alias,
    adapt parseLiteral (VObj [ ("labels", VArr []) ]) = Ok (chartPayload, alias)
    /\ if exposesSeries chartPayload
       then exists el, renderChart parseLiteral (VObj [ ("labels", VArr []) ]) = Ok el
                       /\ drawnFrom chartPayload el
       else renderChart parseLiteral (VObj [ ("labels", VArr []) ])
            = Ok (StructureMismatch (VObj [ ("labels", VArr []) ])).
Proof.
  apply (proj1 (renderChart_validation parseLiteral) (VObj [ ("labels", VArr []) ]));
    reflexivity.
Defined.

(** The payload of a canonical chart exposes its series. *)
Lemma canonical_exposesSeries (c : CanonicalChart) : exposesSeries (payloadOf c) = true.
Proof. reflexivity. Qed.

(** C4.  On the payload of a well-formed canonical chart no adaptation
    rule fires (decoding and unwrapping leave it the very object
    received, and each of the four cases returns it as it is), so the
    adapted payload equals the input, and the element drawn carries its
    kind, its data and its options (under the fixed display overrides). *)
Theorem renderChart_canonical (JSON_parse : string -> option Value) (c : CanonicalChart) :
  wellFormed c ->
  unwrapping (stringParsingFix JSON_parse (payloadOf c)) = Ok (payloadOf c, Whole)
  /\ casoD (payloadOf c) = Ok (payloadOf c)
  /\ casoA (payloadOf c) = Ok (payloadOf c)
  /\ casoB (payloadOf c) = Ok (payloadOf c)
  /\ casoC (payloadOf c) = Ok (payloadOf c)
  /\ adapt JSON_parse (payloadOf c) = Ok (payloadOf c, Whole)
  /\ renderChart JSON_parse (payloadOf c) = Ok (chartOf c).
Proof.
  intros _. do 6 (split; [ reflexivity | ]).
  unfold chartOf, payloadOf. destruct (kind c); reflexivity.
Qed.

Lemma renderChart_canonical_witness :
  renderChart parseLiteral
    (payloadOf {| kind := KBar; labels := [ "Mon"; "Tue" ];
                  series := [ {| name := "Spot"; values := [ 41; 39 ] |} ];
                  options := VUndefined |})
  = Ok (chartOf {| kind := KBar; labels := [ "Mon"; "Tue" ];
                   series := [ {| name := "Spot"; values := [ 41; 39 ] |} ];
                   options := VUndefined |}).
Proof.
  refine (proj2 (proj2 (proj2 (proj2 (proj2 (proj2
    (renderChart_canonical parseLiteral
       {| kind := KBar; labels := [ "Mon"; "Tue" ];
          series := [ {| name := "Spot"; values := [ 41; 39 ] |} ];
          options := VUndefined |} _))))))).
  split; [ discriminate | repeat constructor ].
Defined.

(** C5.  The axis-pair payload with x = 0,1,2, y = 10,20,30 and ylabel
    "Price" is drawn as a line chart whose data has the labels 0,1,2 and
    exactly one series, named "Price", with the values 10,20,30; with no
    ylabel and no title the series is named "Value", whatever the axes. *)
Theorem renderChart_axis_pair (JSON_parse : string -> option Value) :
  renderChart JSON_parse
    (axisPayload [ VNum 0; VNum 1; VNum 2 ] [ VNum 10; VNum 20; VNum 30 ]
                 [ ("ylabel", VStr "Price") ])
  = Ok (LineChart (axisData [ VNum 0; VNum 1; VNum 2 ] [ VNum 10; VNum 20; VNum 30 ] "Price")
                  (chartOptions VUndefined))
  /\ (forall x y,
        renderChart JSON_parse (axisPayload x y [])
        = Ok (LineChart (axisData x y "Value") (chartOptions VUndefined))).
Proof. split; [ | intros x y ]; reflexivity. Qed.

End ChatFacts.

(** ** ForecastsChart: series styling and the legend click *)

Module ForecastsFacts.

Import ForecastsChart.
Local Open Scope Q_scope.

(** The three stylings: stroke width and stroke opacity. *)
Definition emphasized (p : LineProps) : Prop := strokeWidth p = 4 /\ strokeOpacity p = 1.
Definition deemphasized (p : LineProps) : Prop := strokeWidth p = 2 /\ strokeOpacity p = 0.15.
Definition uniform (p : LineProps) : Prop := strokeWidth p = 2 /\ strokeOpacity p = 1.

Lemma line_active (h : string) (s : SeriesConfig) :
  key s = h -> emphasized (line (Some h) s).
Proof.
  intros <-. unfold emphasized, line, isDimmed, isActive. simpl.
  now rewrite String.eqb_refl.
Qed.

Lemma line_dimmed (h : string) (s : SeriesConfig) :
  key s <> h -> deemphasized (line (Some h) s).
Proof.
  intros Hne. unfold deemphasized, line, isDimmed, isActive. simpl.
  destruct (String.eqb_spec h (key s)); [ congruence | now split ].
Qed.

Lemma line_uniform (s : SeriesConfig) : uniform (line None s).
Proof. now split. Qed.

(** The same over the four configured series. *)
Lemma lines_styling (h : string) :
  Forall (fun p => if String.eqb h (dataKey p) then emphasized p else deemphasized p)
         (lines (Some h))
  /\ Forall uniform (lines None).
Proof.
  split.
  - unfold lines. apply Forall_map, List.Forall_forall. intros s _. simpl.
    destruct (String.eqb_spec h (key s));
      [ apply line_active | apply line_dimmed ]; congruence.
  - repeat constructor.
Qed.

(** C9.  With a series highlighted, the series of that name is drawn
    emphasized (width 4, opacity 1) and every other series de-emphasized
    (width 2, opacity 0.15); with none highlighted every series has the
    uniform styling (width 2, opacity 1).  A click on the highlighted
    name clears the highlight; a click on any other name highlights it. *)
Theorem highlight_styling (h : string) (s : SeriesConfig) (clicked : string) :
  (key s = h -> emphasized (line (Some h) s))
  /\ (key s <> h -> deemphasized (line (Some h) s))
  /\ uniform (line None s)
  /\ handleLegendClick (Some h) h = None
  /\ (clicked <> h -> handleLegendClick (Some h) clicked = Some clicked)
  /\ handleLegendClick None clicked = Some clicked.
Proof.
  split; [ apply line_active | ].
  split; [ apply line_dimmed | ].
  split; [ apply line_uniform | ].
  unfold handleLegendClick. split; [ now rewrite String.eqb_refl | ].
  split; [ | reflexivity ].
  intros Hne. destruct (String.eqb_spec h clicked); [ congruence | reflexivity ].
Qed.

Lemma highlight_styling_witness :
  emphasized (line (Some "Wind Forecast") {| key := "Wind Forecast"; color := "#10b981" |})
  /\ deemphasized (line (Some "Spot Price") {| key := "Wind Forecast"; color := "#10b981" |})
  /\ handleLegendClick (Some "Spot Price") "Wind Forecast" = Some "Wind Forecast".
Proof.
  pose proof (highlight_styling "Wind Forecast"
                {| key := "Wind Forecast"; color := "#10b981" |} "Spot Price") as Hsame.
  pose proof (highlight_styling "Spot Price"
                {| key := "Wind Forecast"; color := "#10b981" |} "Wind Forecast") as Hother.
  destruct Hsame as (He & _). destruct Hother as (_ & Hd & _ & _ & Hc & _).
  split; [ apply He; reflexivity | split; [ apply Hd | apply Hc ]; discriminate ].
Defined.

End ForecastsFacts.

(** ** EuropePriceMap: further properties of the range *)

Module RangeMore.

Import EuropePriceMap Spec RangeFacts.
Local Open Scope list_scope.
Local Open Scope Q_scope.

(** A price of the series: some snapshot holds it for some zone. *)
Definition pricePresent (hours : HourlyPrices) (p : Q) : Prop :=
  exists h zone, In h hours /\ In (zone, Some p) (prices h).

Definition fallbackRange : PriceRange := {| minPrice := 0; maxPrice := 100 |}.

(** [allPrices] holds exactly the present prices that are not negative. *)
Lemma allPrices_In (hours : HourlyPrices) (p : Q) :
  In p (allPrices hours) <-> pricePresent hours p /\ 0 <= p.
Proof.
  unfold allPrices, pricePresent. rewrite List.in_flat_map. split.
  - intros (h & Hh & Hp). apply List.in_flat_map in Hp as ([ zone [ q | ] ] & He & Hq);
      simpl in Hq; [ | destruct Hq ].
    destruct (Qle_bool 0 q) eqn:E; simpl in Hq; [ | destruct Hq ].
    destruct Hq as [ <- | [] ]. apply Qle_bool_iff in E. eauto 6.
  - intros ((h & zone & Hh & He) & Hp). exists h. split; [ exact Hh | ].
    apply List.in_flat_map. exists (zone, Some p). split; [ exact He | ]. simpl.
    apply Qle_bool_iff in Hp. rewrite Hp. now left.
Qed.

(** X1.  Whatever the series and the flag, the memo yields a range, its
    low bound is not negative and not above its high bound, and the range
    is either the fallback 0..100 or made of two prices of the series. *)
Theorem robustRange_invariant (apiHours : option HourlyPrices) (hasData : bool) :
  exists r,
    robustRange apiHours hasData = Some r
    /\ 0 <= minPrice r /\ minPrice r <= maxPrice r
    /\ (r = fallbackRange
        \/ exists hours, apiHours = Some hours
                         /\ pricePresent hours (minPrice r)
                         /\ pricePresent hours (maxPrice r)).
Proof.
  assert (F : exists r, Some fallbackRange = Some r
                        /\ 0 <= minPrice r /\ minPrice r <= maxPrice r
                        /\ (r = fallbackRange
                            \/ exists hours, apiHours = Some hours
                                             /\ pricePresent hours (minPrice r)
                                             /\ pricePresent hours (maxPrice r))).
  { exists fallbackRange. simpl. repeat split; try lra. now left. }
  destruct apiHours as [ hours | ]; simpl; [ | exact F ].
  destruct hasData; simpl; [ | exact F ].
  destruct (allPrices hours) as [ | p rest ] eqn:E; [ exact F | ].
  destruct (computeRobustRange_nonempty (p :: rest)) as (r & Er & Ilo & Ihi & Hle);
    [ discriminate | ].
  rewrite <- E in Ilo, Ihi. apply allPrices_In in Ilo as [ Plo Nlo ].
  apply allPrices_In in Ihi as [ Phi _ ].
  exists r. repeat split; auto. right. exists hours. auto.
Qed.

(** Without a present price nothing is collected. *)
Lemma no_valid_prices (hours : HourlyPrices) :
  hasValidPrices hours = false -> allPrices hours = [].
Proof.
  unfold hasValidPrices, allPrices. induction hours as [ | h hours IH ]; [ reflexivity | ].
  simpl. intros H. apply orb_false_iff in H as [ Hh Hrest ].
  rewrite (IH Hrest), app_nil_r. clear IH Hrest.
  induction (prices h) as [ | [ zone [ q | ] ] es IHe ]; simpl in *;
    [ reflexivity | discriminate | auto ].
Qed.

(** X2.  With the flag the loader computes for a series, the flag test of
    the memo changes nothing: the range is the one computed from the
    collected prices, which is the fallback when none was collected. *)
Theorem robustRange_with_loader_flag (hours : HourlyPrices) :
  robustRange (Some hours) (hasValidPrices hours) = computeRobustRange (allPrices hours)
  /\ (hasValidPrices hours = false ->
      robustRange (Some hours) true = Some fallbackRange).
Proof.
  unfold robustRange. split.
  - destruct (hasValidPrices hours) eqn:E; simpl; [ reflexivity | ].
    now rewrite no_valid_prices.
  - intros E. simpl. now rewrite no_valid_prices.
Qed.

Lemma robustRange_with_loader_flag_witness :
  robustRange (Some [ {| hour := 0; prices := [ ("DE", None) ] |} ]) true
  = Some fallbackRange.
Proof.
  apply (proj2 (robustRange_with_loader_flag [ {| hour := 0; prices := [ ("DE", None) ] |} ])).
  reflexivity.
Defined.

(** *** The range depends on the prices, not on their order *)

Definition countIf (f : Q -> bool) (l : list Q) : nat := length (List.filter f l).

Lemma countIf_Permutation (f : Q -> bool) (l l' : list Q) :
  Permutation l l' -> countIf f l = countIf f l'.
Proof.
  unfold countIf. induction 1 as [ | x l l' _ IH | x y l | l l' l'' _ IH1 _ IH2 ]; simpl.
  - reflexivity.
  - destruct (f x); simpl; congruence.
  - destruct (f x), (f y); reflexivity.
  - congruence.
Qed.

Definition below (v x : Q) : bool := negb (Qle_bool v x).
Definition upTo (v x : Q) : bool := Qle_bool x v.

(** Where a value sits in a sorted array: after everything below it,
    before the end of everything up to it. *)
Lemma sorted_position (l : list Q) :
  StronglySorted Qle l ->
  forall i v, nth_error l i = Some v ->
    (countIf (below v) l <= i)%nat /\ (i < countIf (upTo v) l)%nat.
Proof.
  unfold countIf. induction 1 as [ | x r S IH F ]; intros i v Hv.
  - destruct i; discriminate.
  - rewrite List.Forall_forall in F. destruct i as [ | i ]; simpl in *.
    + injection Hv as <-.
      assert (E : List.filter (below x) r = []).
      { clear IH S. induction r as [ | y r IHr ]; [ reflexivity | ]. simpl.
        unfold below at 1. assert (Hy : x <= y) by (apply F; now left).
        apply Qle_bool_iff in Hy. rewrite Hy. simpl. apply IHr.
        intros z Hz. apply F. now right. }
      unfold below at 1, upTo at 1.
      assert (Hx : Qle_bool x x = true) by (apply Qle_bool_iff; lra).
      rewrite Hx. simpl. rewrite E. simpl. lia.
    + destruct (IH i v Hv) as [ Hlo Hhi ].
      assert (Hxv : x <= v) by (apply F; eapply nth_error_In; eauto).
      unfold upTo at 1. apply Qle_bool_iff in Hxv. rewrite Hxv. simpl.
      destruct (below v x); simpl; lia.
Qed.

(** Two sorted arrangements of the same prices read the same number at
    the same index. *)
Lemma sorted_index_unique (l l' : list Q) (i : nat) (v w : Q) :
  Permutation l l' -> StronglySorted Qle l -> StronglySorted Qle l' ->
  nth_error l i = Some v -> nth_error l' i = Some w -> v == w.
Proof.
  intros P S S' Hv Hw.
  destruct (sorted_position l S i v Hv) as [ Vlo Vhi ].
  destruct (sorted_position l' S' i w Hw) as [ Wlo Whi ].
  assert (M : forall a b : Q, a < b -> (countIf (upTo a) l <= countIf (below b) l)%nat).
  { intros a b Hab. unfold countIf. clear - Hab.
    induction l as [ | x l IH ]; simpl; [ lia | ].
    unfold upTo at 1, below at 1.
    destruct (Qle_bool x a) eqn:E1; destruct (Qle_bool b x) eqn:E2; simpl; try lia.
    apply Qle_bool_iff in E1. apply Qle_bool_iff in E2. lra. }
  rewrite <- (countIf_Permutation (below w) _ _ P) in Wlo.
  rewrite <- (countIf_Permutation (upTo w) _ _ P) in Whi.
  destruct (Qlt_le_dec v w) as [ H | H ]; [ specialize (M v w H); lia | ].
  destruct (Qlt_le_dec w v) as [ H' | H' ]; [ specialize (M w v H'); lia | ].
  lra.
Qed.

(** X3.  Reordering the collected prices (the zones of a snapshot, the
    snapshots of the day) does not move the range: both arrangements give
    a range, with equal low bounds and equal high bounds. *)
Theorem computeRobustRange_Permutation (l l' : list Q) :
  Permutation l l' ->
  exists r r',
    computeRobustRange l = Some r /\ computeRobustRange l' = Some r'
    /\ minPrice r == minPrice r' /\ maxPrice r == maxPrice r'.
Proof.
  intros P. destruct l as [ | a l ].
  - apply Permutation_nil in P as ->. exists fallbackRange, fallbackRange.
    repeat split; reflexivity.
  - assert (N' : l' <> []).
    { intros ->. apply Permutation_sym, Permutation_nil in P. discriminate. }
    pose proof (Permutation_length P) as L.
    unfold computeRobustRange.
    destruct (Nat.eqb_spec (length (a :: l)) 0) as [ E | _ ]; [ discriminate | ].
    destruct (Nat.eqb_spec (length l') 0) as [ E | _ ];
      [ destruct l'; [ congruence | discriminate ] | ].
    cbv zeta. rewrite !sort_length, <- L.
    set (n := length (a :: l)).
    assert (Hn : (0 < n)%nat) by (unfold n; simpl; lia).
    destruct (index_bounds n Hn) as [ H59 H95 ].
    assert (PS : Permutation (PriceSort.sort (a :: l)) (PriceSort.sort l')).
    { eapply Permutation_trans; [ apply Permutation_sym, PriceSort.Permuted_sort | ].
      eapply Permutation_trans; [ exact P | apply PriceSort.Permuted_sort ]. }
    assert (D : forall (s : list Q) i, length s = n -> (i < n)%nat ->
                exists v, nth_error s i = Some v).
    { intros s i Ls Hi. destruct (nth_error s i) eqn:E; [ eauto | ].
      apply nth_error_None in E. lia. }
    destruct (D (PriceSort.sort (a :: l)) (p5Index n)) as [ lo Elo ];
      [ apply sort_length | lia | ].
    destruct (D (PriceSort.sort (a :: l)) (p95Index n)) as [ hi Ehi ];
      [ apply sort_length | lia | ].
    destruct (D (PriceSort.sort l') (p5Index n)) as [ lo' Elo' ];
      [ rewrite sort_length; lia | lia | ].
    destruct (D (PriceSort.sort l') (p95Index n)) as [ hi' Ehi' ];
      [ rewrite sort_length; lia | lia | ].
    rewrite Elo, Ehi, Elo', Ehi'. eexists _, _. simpl.
    split; [ reflexivity | split; [ reflexivity | ] ].
    split; eapply sorted_index_unique; eauto using sort_StronglySorted.
Qed.

Lemma computeRobustRange_Permutation_witness :
  exists r r',
    computeRobustRange [ 30; 10; 20 ] = Some r /\ computeRobustRange [ 10; 20; 30 ] = Some r'
    /\ minPrice r == minPrice r' /\ maxPrice r == maxPrice r'.
Proof.
  apply (computeRobustRange_Permutation [ 30; 10; 20 ] [ 10; 20; 30 ]).
  change [ 10; 20; 30 ] with ([ 10; 20 ] ++ [ 30 ]).
  apply Permutation_cons_app. rewrite app_nil_r. apply Permutation_refl.
Defined.

End RangeMore.

(** ** EuropePriceMap: how much the range covers, and what gets which fill *)

Module MapFacts.

Import EuropePriceMap Spec RangeFacts ColorFacts PriceMapFacts RangeMore.
Local Open Scope list_scope.
Local Open Scope Q_scope.

(** [lo <= x <= hi] *)
Definition within (lo hi x : Q) : bool := Qle_bool lo x && Qle_bool x hi.

(** A stretch of indices whose values all pass a test counts at least its
    length among the values that pass. *)
Lemma segment_count (f : Q -> bool) (l : list Q) :
  forall i j, (i <= j)%nat -> (j < length l)%nat ->
    (forall k x, (i <= k <= j)%nat -> nth_error l k = Some x -> f x = true) ->
    (j - i + 1 <= countIf f l)%nat.
Proof.
  unfold countIf. induction l as [ | a l IH ]; intros i j Hij Hj Hf; simpl in *; [ lia | ].
  destruct i as [ | i ].
  - assert (Ha : f a = true) by (apply (Hf 0%nat a); [ lia | reflexivity ]).
    rewrite Ha. simpl.
    destruct j as [ | j ]; [ lia | ].
    assert (j - 0 + 1 <= length (List.filter f l))%nat; [ | lia ].
    apply IH; [ lia | lia | ].
    intros k x Hk Hx. apply (Hf (S k) x); [ lia | exact Hx ].
  - destruct j as [ | j ]; [ lia | ].
    assert (j - i + 1 <= length (List.filter f l))%nat.
    { apply IH; [ lia | lia | ].
      intros k x Hk Hx. apply (Hf (S k) x); [ lia | exact Hx ]. }
    destruct (f a); simpl; lia.
Qed.

(** The two indices leave out fewer than a tenth of the positions. *)
Lemma index_span (n : nat) :
  (0 < n)%nat -> (9 * n < 10 * (p95Index n - p5Index n + 1))%nat.
Proof.
  intros Hn. destruct (index_bounds n Hn) as [ H59 H95 ].
  rewrite p5Index_div, p95Index_div in *.
  pose proof (Z.mul_div_le (Z.of_nat n * 5) 100 ltac:(lia)) as Hb.
  pose proof (Z.mul_succ_div_gt (Z.of_nat n * 95) 100 ltac:(lia)) as Ha.
  assert (H5 : (0 <= Z.of_nat n * 5 / 100)%Z) by (apply Z.div_pos; lia).
  lia.
Qed.

(** X4.  More than nine tenths of the collected prices lie inside the
    robust range: fewer than one price in ten is clamped to an end of the
    colour scale. *)
Theorem computeRobustRange_covers (l : list Q) :
  l <> [] ->
  exists r,
    computeRobustRange l = Some r
    /\ (9 * length l < 10 * countIf (within (minPrice r) (maxPrice r)) l)%nat.
Proof.
  intros Hne. unfold computeRobustRange.
  assert (Hlen : (0 < length l)%nat) by (destruct l; [ congruence | simpl; lia ]).
  destruct (Nat.eqb_spec (length l) 0) as [ E | _ ]; [ lia | ].
  cbv zeta. rewrite sort_length.
  destruct (index_bounds (length l) Hlen) as [ H59 H95 ].
  pose proof (sort_StronglySorted l) as S.
  destruct (nth_error (PriceSort.sort l) (p5Index (length l))) as [ lo | ] eqn:Elo.
  2:{ apply nth_error_None in Elo. rewrite sort_length in Elo. lia. }
  destruct (nth_error (PriceSort.sort l) (p95Index (length l))) as [ hi | ] eqn:Ehi.
  2:{ apply nth_error_None in Ehi. rewrite sort_length in Ehi. lia. }
  eexists. split; [ reflexivity | ]. simpl.
  rewrite (countIf_Permutation _ _ _ (PriceSort.Permuted_sort l)).
  pose proof (index_span (length l) Hlen) as Hspan.
  assert (p95Index (length l) - p5Index (length l) + 1
          <= countIf (within lo hi) (PriceSort.sort l))%nat; [ | lia ].
  apply segment_count; [ exact H59 | rewrite sort_length; exact H95 | ].
  intros k x [ Hk1 Hk2 ] Hx. unfold within. apply andb_true_iff. split; apply Qle_bool_iff.
  - exact (StronglySorted_nth_error _ S _ _ _ _ Hk1 Elo Hx).
  - exact (StronglySorted_nth_error _ S _ _ _ _ Hk2 Hx Ehi).
Qed.

Definition samplePrices : list Q := [ 40; 500; 35 ].

Lemma computeRobustRange_covers_witness :
  exists r,
    computeRobustRange samplePrices = Some r
    /\ (9 * length samplePrices
        < 10 * countIf (within (minPrice r) (maxPrice r)) samplePrices)%nat.
Proof. apply (computeRobustRange_covers samplePrices). discriminate. Defined.

(** *** Fill colours *)

Lemma robustRange_ordered (apiHours : option HourlyPrices) (hasData : bool) (r : PriceRange) :
  robustRange apiHours hasData = Some r -> minPrice r <= maxPrice r.
Proof.
  unfold robustRange.
  assert (F : Some fallbackRange = Some r -> minPrice r <= maxPrice r)
    by (intros [= <-]; simpl; lra).
  destruct apiHours as [ hours | ]; [ | exact F ].
  destruct hasData; simpl; [ | exact F ].
  destruct (allPrices hours) as [ | p rest ]; [ exact F | ].
  destruct (computeRobustRange_nonempty (p :: rest)) as (r' & Er & _ & _ & Hle);
    [ discriminate | ].
  rewrite Er. now intros [= <-].
Qed.

(** X5.  With any range the memo yields, a price is filled with the
    fixed blue exactly when it is negative; any other price gets an
    [hsl] colour whose hue lies between 0 and 140. *)
Theorem fill_color_classes (apiHours : option HourlyPrices) (hasData : bool)
    (r : PriceRange) (price : Q) :
  robustRange apiHours hasData = Some r ->
  (colorFor price r = negativeColor <-> price < 0)
  /\ (0 <= price ->
      exists h s l, colorFor price r = Hsl h s l /\ 0 <= h /\ h <= 140).
Proof.
  intros Hr. apply robustRange_ordered in Hr.
  assert (N : 0 <= price ->
              exists h s l, colorFor price r = Hsl h s l /\ 0 <= h /\ h <= 140).
  { intros Hp. unfold colorFor. destruct (Qlt_le_dec (minPrice r) (maxPrice r)) as [ Hlt | Hge ].
    - rewrite interpolated by assumption.
      destruct (hueAt_bounds price _ _ Hlt). eauto 7.
    - unfold calculateDynamicColor. rewrite Qltb_false by assumption.
      assert (E : Qeq_bool (maxPrice r) (minPrice r) = true) by (apply Qeq_bool_iff; lra).
      rewrite E. exists 80, 85%Z, 50%Z. repeat split; lra. }
  split; [ | exact N ]. split.
  - intros Hc. destruct (Qlt_le_dec price 0) as [ H | H ]; [ exact H | ].
    destruct (N H) as (h & s & l & E & _). rewrite E in Hc. discriminate.
  - intros Hp. now apply negative_price_color.
Qed.

Lemma fill_color_classes_witness :
  colorFor (-3) {| minPrice := 50; maxPrice := 500 |} = negativeColor <-> -3 < 0.
Proof.
  apply (fill_color_classes (Some endToEndSeries) true {| minPrice := 50; maxPrice := 500 |} (-3)).
  reflexivity.
Defined.

(** *** Regions with a price and the features of the map *)

Lemma get_In {A} (key : string) (table : list (string * A)) (v : A) :
  Rec.get key table = Some v -> In (key, v) table.
Proof.
  induction table as [ | [ k w ] table IH ]; simpl; [ discriminate | ].
  destruct (String.eqb_spec k key) as [ -> | _ ]; [ intros [= ->]; now left | auto ].
Qed.

(** Every region of the zone table is a country of the map. *)
Lemma table_in_europe (toUpperCase : string -> string) (zone iso : string) :
  resolve toUpperCase zone = Some iso -> iso ∈ europeanCountries /\ iso <> "".
Proof.
  unfold resolve. intros H. apply get_In in H.
  assert (F : Forall (fun e => snd e ∈ europeanCountries /\ snd e <> "") ZONE_TO_ISO3).
  { repeat constructor; simpl; try discriminate;
      apply bool_decide_unpack; vm_compute; exact I. }
  rewrite List.Forall_forall in F. exact (F _ H).
Qed.

(** A region holds a price only through a zone that resolves to it. *)
Lemma priceMap_resolved (toUpperCase : string -> string)
    (apiHours : option HourlyPrices) (selectedHour : Z) (iso : string) (v : Q) :
  priceMap toUpperCase apiHours selectedHour !! iso = Some v ->
  exists zone, resolve toUpperCase zone = Some iso.
Proof.
  unfold priceMap. destruct apiHours as [ hours | ]; [ | now rewrite lookup_empty ].
  destruct (find _ hours) as [ hourObj | ]; [ | now rewrite lookup_empty ].
  rewrite fold_lookup, lookup_empty.
  destruct (find (contributes toUpperCase iso) (rev (prices hourObj))) as [ e | ] eqn:E;
    [ | discriminate ].
  apply find_some in E as [ _ C ]. unfold contributes in C.
  destruct (snd e); [ | discriminate ].
  destruct (resolve toUpperCase (fst e)) as [ r | ] eqn:R; [ | discriminate ].
  apply String.eqb_eq in C as ->. eauto.
Qed.

(** X6.  Whatever the series and the hour, and whatever upper-casing does
    to the zone codes, every region that holds a price is one of the
    countries of the map, and a feature the Europe filter drops is never
    painted with a price: it gets the grey fill at opacity 0.3. *)
Theorem priced_regions_are_on_the_map (toUpperCase : string -> string)
    (apiHours : option HourlyPrices) (selectedHour : Z) :
  (forall iso v, priceMap toUpperCase apiHours selectedHour !! iso = Some v ->
                 iso ∈ europeanCountries)
  /\ (forall f lo hi,
        keepFeature f = false ->
        getStyleForFeature (priceMap toUpperCase apiHours selectedHour) lo hi (Some f)
        = Some {| fillColor := Hex "#e2e8f0"; fillOpacity := 0.3;
                  weight := 1; color := "#ffffff"; opacity := 1 |}).
Proof.
  assert (K : forall iso v, priceMap toUpperCase apiHours selectedHour !! iso = Some v ->
                            iso ∈ europeanCountries).
  { intros iso v H. apply priceMap_resolved in H as [ zone R ].
    now apply table_in_europe in R. }
  split; [ exact K | ].
  intros f lo hi Hdrop. unfold getStyleForFeature, keepFeature, priceOf in *.
  destruct (getISO (properties f)) as [ iso | ]; [ | reflexivity ].
  destruct (String.eqb iso ""); simpl in *; [ reflexivity | ].
  destruct (priceMap toUpperCase apiHours selectedHour !! iso) as [ p | ] eqn:E;
    [ | reflexivity ].
  apply K in E. apply bool_decide_eq_false in Hdrop. contradiction.
Qed.

Lemma priced_regions_are_on_the_map_witness :
  getStyleForFeature (priceMap Str.toUpperCase (Some endToEndSeries) 12) 50 500
    (Some {| properties := Some (Build_GeoJSONFeatureProperties
                                   (Some "USA") None None None None) |})
  = Some {| fillColor := Hex "#e2e8f0"; fillOpacity := 0.3;
            weight := 1; color := "#ffffff"; opacity := 1 |}.
Proof.
  apply (proj2 (priced_regions_are_on_the_map Str.toUpperCase (Some endToEndSeries) 12)).
  vm_compute. reflexivity.
Defined.

(** X7.  The fill of a feature follows the snapshot of the selected hour:
    for a feature with a non-empty ISO code, the fill is the colour of the
    price of the last entry of that snapshot that contributes to the code
    (its price is present and the table gives the code for its upper-cased
    zone), at opacity 0.85, and the grey at opacity 0.3 when no entry
    does.  This holds for every upper-casing function, so for the
    runtime's on zone codes of any content. *)
Theorem feature_fill (toUpperCase : string -> string)
    (hours before after : HourlyPrices) (hourObj : HourData)
    (selectedHour : Z) (f : Feature) (iso : string) (lo hi : Q) :
  hours = before ++ hourObj :: after ->
  Forall (fun h => hour h <> selectedHour) before ->
  hour hourObj = selectedHour ->
  getISO (properties f) = Some iso -> iso <> "" ->
  getStyleForFeature (priceMap toUpperCase (Some hours) selectedHour) lo hi (Some f)
  = Some {| fillColor := match lastPrice toUpperCase iso (prices hourObj) with
                         | Some p => calculateDynamicColor p lo hi
                         | None => Hex "#e2e8f0"
                         end;
            fillOpacity := match lastPrice toUpperCase iso (prices hourObj) with
                           | Some _ => 0.85
                           | None => 0.3
                           end;
            weight := 1; color := "#ffffff"; opacity := 1 |}
  /\ (forall v, lastPrice toUpperCase iso (prices hourObj) = Some v <->
        exists pre zone post,
          prices hourObj = pre ++ (zone, Some v) :: post
          /\ Rec.get (toUpperCase zone) ZONE_TO_ISO3 = Some iso
          /\ Forall (fun e => snd e = None
                              \/ Rec.get (toUpperCase (fst e)) ZONE_TO_ISO3 <> Some iso)
                    post).
Proof.
  intros -> Hb Hh Hiso Hne. split; [ | intros v; apply lastPrice_table ].
  unfold getStyleForFeature, priceOf. rewrite Hiso.
  apply String.eqb_neq in Hne. rewrite Hne.
  unfold priceMap. rewrite (find_first _ _ _ _ (other_hours _ _ Hb)) by now apply Z.eqb_eq.
  rewrite fold_lookup, lookup_empty. unfold lastPrice.
  destruct (find (contributes toUpperCase iso) (rev (prices hourObj))) as [ e | ] eqn:E;
    [ | reflexivity ].
  apply find_some in E as [ _ C ]. unfold contributes in C.
  destruct (snd e); [ reflexivity | discriminate ].
Qed.

Definition franceFeature : Feature :=
  {| properties := Some (Build_GeoJSONFeatureProperties None (Some "FRA") None None None) |}.

(** On the end-to-end series, whose zone codes are ASCII. *)
Lemma feature_fill_witness :
  getStyleForFeature (priceMap Str.toUpperCase (Some endToEndSeries) 12) 50 500
    (Some franceFeature)
  = Some {| fillColor := Hex "#3b82f6"; fillOpacity := 0.85;
            weight := 1; color := "#ffffff"; opacity := 1 |}.
Proof.
  refine (proj1 (feature_fill Str.toUpperCase endToEndSeries [] []
            {| hour := 12; prices := [ ("DE", Some 50); ("FR", Some (-5)); ("PL", Some 500) ] |}
            12 franceFeature "FRA" 50 500 eq_refl (List.Forall_nil _) eq_refl eq_refl _)).
  discriminate.
Defined.

End MapFacts.

(** ** ChatInterface: the rules as a table, re-rendering, kind and options *)

Module ChatMore.

Import ChatInterface Spec ChatFacts.
Local Open Scope list_scope.
Local Open Scope Q_scope.

(** *** Property lists, continued *)

Lemma get_set_other {A} (key k : string) (v : A) (obj : list (string * A)) :
  key <> k -> Rec.get k (Rec.set key v obj) = Rec.get k obj.
Proof.
  intros Hne. induction obj as [ | [ k' w ] obj IH ]; simpl.
  - destruct (String.eqb_spec key k); [ contradiction | reflexivity ].
  - destruct (String.eqb_spec k' key) as [ -> | Hk ]; simpl.
    + destruct (String.eqb_spec key k); [ contradiction | reflexivity ].
    + destruct (String.eqb k' k); [ reflexivity | exact IH ].
Qed.


(** *** The four cases in sequence, and as a table *)

(** The four cases in the order the function runs them. *)
Definition rules (chartPayload : Value) : Outcome Value :=
  bind (casoD chartPayload) (fun c => bind (casoA c) (fun c => bind (casoB c) casoC)).

(** [chartPayload.data = d] on an object. *)
Definition withData (chartPayload d : Value) : Value :=
  match chartPayload with
  | VObj props => VObj (Rec.set "data" d props)
  | _ => chartPayload
  end.

(** [data.datasets = d] on an object. *)
Definition withDatasets (data d : Value) : Value :=
  match data with
  | VObj props => VObj (Rec.set "datasets" d props)
  | _ => data
  end.

Definition hasAxes (data : Value) : bool :=
  truthy data && isArray (field data "x") && isArray (field data "y").

Definition axesData (data : Value) : Value :=
  VObj [ ("labels", field data "x");
         ("datasets",
          VArr [ VObj [ ("label", orElse (field data "ylabel")
                                         (orElse (field data "title") (VStr "Value")));
                        ("data", field data "y");
                        ("borderColor", VStr "rgba(54, 162, 235, 1)");
                        ("backgroundColor", VStr "rgba(54, 162, 235, 0.2)");
                        ("borderWidth", VNum 2) ] ]) ].

Definition wrapped (chartPayload datasets : Value) : Value :=
  VObj [ ("labels", orElse (field chartPayload "labels") (VArr []));
         ("datasets", datasets) ].

(** The one case, if any, that applies to a payload, and what it writes. *)
Definition adapted (cp : Value) : Value :=
  let data := field cp "data" in
  if truthy data then
    if hasAxes data then withData cp (axesData data)
    else if truthy (field data "dataset") && negb (truthy (field data "datasets"))
         then withData cp (withDatasets data (asArray (field data "dataset")))
         else cp
  else if truthy (field cp "datasets") then withData cp (wrapped cp (field cp "datasets"))
  else if truthy (field cp "dataset")
       then withData cp (wrapped cp (asArray (field cp "dataset")))
       else cp.

Lemma field_withData (props : list (string * Value)) (d : Value) :
  field (withData (VObj props) d) "data" = d.
Proof. simpl. now rewrite get_set_same. Qed.


Lemma casoD_spec (cp : Value) :
  nullish cp = false ->
  casoD cp = Ok (if hasAxes (field cp "data") then withData cp (axesData (field cp "data"))
                 else cp).
Proof.
  intros Hcp. unfold casoD, hasAxes. rewrite (get_field cp) by assumption. simpl.
  destruct (truthy (field cp "data")) eqn:Td; simpl; [ | reflexivity ].
  rewrite !(get_field (field cp "data")) by now apply truthy_nullish. simpl.
  destruct (isArray (field (field cp "data") "x")); simpl; [ | reflexivity ].
  destruct (isArray (field (field cp "data") "y")); simpl; [ | reflexivity ].
  destruct (truthy_field _ _ Td) as [ props -> ]. reflexivity.
Qed.

Lemma casoA_spec (cp : Value) :
  nullish cp = false ->
  casoA cp = Ok (if truthy (field cp "data") then cp
                 else if truthy (field cp "datasets")
                      then withData cp (wrapped cp (field cp "datasets"))
                      else cp).
Proof.
  intros Hcp. unfold casoA. rewrite !(get_field cp) by assumption. simpl.
  destruct (truthy (field cp "data")); simpl; [ reflexivity | ].
  destruct (truthy (field cp "datasets")) eqn:Ts; simpl; [ | reflexivity ].
  destruct (truthy_field _ _ Ts) as [ props -> ]. reflexivity.
Qed.

Lemma casoB_spec (cp : Value) :
  nullish cp = false ->
  casoB cp = Ok (if truthy (field cp "data")
                    && truthy (field (field cp "data") "dataset")
                    && negb (truthy (field (field cp "data") "datasets"))
                 then withData cp (withDatasets (field cp "data")
                                     (asArray (field (field cp "data") "dataset")))
                 else cp).
Proof.
  intros Hcp. unfold casoB. rewrite (get_field cp) by assumption. simpl.
  destruct (truthy (field cp "data")) eqn:Td; simpl; [ | reflexivity ].
  rewrite !(get_field (field cp "data")) by now apply truthy_nullish. simpl.
  destruct (truthy (field (field cp "data") "dataset")) eqn:T1; simpl; [ | reflexivity ].
  destruct (truthy (field (field cp "data") "datasets")); simpl; [ reflexivity | ].
  destruct (truthy_field _ _ T1) as [ data Ed ].
  destruct (truthy_field _ _ Td) as [ props -> ].
  rewrite Ed. reflexivity.
Qed.

Lemma casoC_spec (cp : Value) :
  nullish cp = false ->
  casoC cp = Ok (if truthy (field cp "data") then cp
                 else if truthy (field cp "dataset")
                      then withData cp (wrapped cp (asArray (field cp "dataset")))
                      else cp).
Proof.
  intros Hcp. unfold casoC. rewrite !(get_field cp) by assumption. simpl.
  destruct (truthy (field cp "data")); simpl; [ reflexivity | ].
  destruct (truthy (field cp "dataset")) eqn:T1; simpl; [ | reflexivity ].
  destruct (truthy_field _ _ T1) as [ props -> ]. reflexivity.
Qed.

(** X8.  The four cases exclude one another: on any payload they can read,
    running them in order completes and amounts to applying the single
    case of the table [adapted], so at most one of them writes. *)
Lemma axesData_shape (d : Value) :
  truthy (axesData d) = true /\ field (axesData d) "dataset" = VUndefined.
Proof. split; reflexivity. Qed.

Lemma wrapped_shape (cp ds : Value) :
  truthy (wrapped cp ds) = true /\ field (wrapped cp ds) "dataset" = VUndefined.
Proof. split; reflexivity. Qed.

Ltac read_data :=
  match goal with
  | |- context [ field (withData (VObj ?p) ?d) "data" ] => rewrite (field_withData p d)
  end.

Ltac tidy :=
  repeat first
    [ read_data
    | rewrite (proj1 (axesData_shape _)) | rewrite (proj2 (axesData_shape _))
    | rewrite (proj1 (wrapped_shape _ _)) | rewrite (proj2 (wrapped_shape _ _)) ];
  cbn [truthy andb negb bind].

(** On a payload they can read, the four cases in order amount to the
    single case of the table. *)
Lemma rules_table (cp : Value) :
  nullish cp = false -> rules cp = Ok (adapted cp).
Proof.
  intros Hcp. unfold rules, adapted.
  rewrite casoD_spec by assumption.
  destruct (truthy (field cp "data")) eqn:Td.
  - destruct (truthy_field _ _ Td) as [ props -> ].
    destruct (hasAxes (field (VObj props) "data")) eqn:Ax; cbn [bind].
    + rewrite casoA_spec by reflexivity. tidy.
      rewrite casoB_spec by reflexivity. tidy.
      rewrite casoC_spec by reflexivity. tidy. reflexivity.
    + rewrite casoA_spec by reflexivity. rewrite Td. cbn [bind].
      rewrite casoB_spec by reflexivity. rewrite Td. cbn [andb].
      destruct (truthy (field (field (VObj props) "data") "dataset")) eqn:T1;
        cbn [andb negb bind].
      * destruct (truthy (field (field (VObj props) "data") "datasets")) eqn:Ts;
          cbn [andb negb bind].
        -- rewrite casoC_spec by reflexivity. now rewrite Td.
        -- rewrite casoC_spec by reflexivity. read_data.
           destruct (truthy_field _ _ T1) as [ data -> ]. reflexivity.
      * rewrite casoC_spec by reflexivity. now rewrite Td.
  - assert (Ax : hasAxes (field cp "data") = false) by (unfold hasAxes; now rewrite Td).
    rewrite Ax. cbn [bind]. rewrite casoA_spec by assumption. rewrite Td.
    destruct (truthy (field cp "datasets")) eqn:Ts; cbn [bind].
    + destruct (truthy_field _ _ Ts) as [ props -> ].
      rewrite casoB_spec by reflexivity. tidy.
      rewrite casoC_spec by reflexivity. tidy. reflexivity.
    + rewrite casoB_spec by assumption. rewrite Td. cbn [andb bind].
      rewrite casoC_spec by assumption. rewrite Td. reflexivity.
Qed.

(** [adapt] is the unwrapping followed by the four cases. *)
Lemma adapt_rules (JSON_parse : string -> option Value) (rawPayload : Value) :
  adapt JSON_parse rawPayload
  = bind (unwrapping (stringParsingFix JSON_parse rawPayload))
         (fun st => bind (rules (fst st)) (fun c => Ok (c, snd st))).
Proof.
  unfold adapt, rules.
  destruct (unwrapping (stringParsingFix JSON_parse rawPayload)) as [ [ c a ] | e ];
    [ | reflexivity ].
  cbn [bind fst snd].
  destruct (casoD c) as [ c1 | ]; [ | reflexivity ]. cbn [bind].
  destruct (casoA c1) as [ c2 | ]; [ | reflexivity ]. cbn [bind].
  destruct (casoB c2) as [ c3 | ]; [ | reflexivity ]. cbn [bind].
  destruct (casoC c3) as [ c4 | ]; reflexivity.
Qed.

(** What the unwrapping does on a payload it can read. *)
Lemma unwrapping_spec (c : Value) (a : Alias) :
  nullish c = false ->
  unwrapping (c, a)
  = Ok (if truthy (field c "chart_data")
        then (field c "chart_data", match a with Whole => Inner | _ => Detached end)
        else (c, a)).
Proof.
  intros Hc. unfold unwrapping. rewrite get_field by assumption. cbn [bind].
  now destruct (truthy (field c "chart_data")).
Qed.

Lemma unwrapping_nullish (c : Value) (a : Alias) :
  nullish c = true -> unwrapping (c, a) = Throw TypeError.
Proof. intros Hc. unfold unwrapping. now rewrite get_nullish. Qed.

(** [adapt] in one step: unwrap, then the table. *)
Lemma adapt_decomposed (JSON_parse : string -> option Value) (rawPayload : Value) :
  adapt JSON_parse rawPayload
  = match unwrapping (stringParsingFix JSON_parse rawPayload) with
    | Ok (c, a) => Ok (adapted c, a)
    | Throw e => Throw e
    end.
Proof.
  rewrite adapt_rules.
  destruct (stringParsingFix JSON_parse rawPayload) as [ c0 a0 ].
  destruct (nullish c0) eqn:N0; [ now rewrite unwrapping_nullish | ].
  rewrite unwrapping_spec by assumption. cbn [bind].
  destruct (truthy (field c0 "chart_data")) eqn:T; cbn [fst snd].
  - rewrite rules_table by now apply truthy_nullish. reflexivity.
  - rewrite rules_table by assumption. reflexivity.
Qed.

(** X8.  The four cases exclude one another.  Once the payload is decoded
    and unwrapped, running the cases in order completes and amounts to
    applying the single case of the table [adapted]: at most one of them
    writes to the payload. *)
Theorem adapt_table (JSON_parse : string -> option Value)
    (rawPayload chartPayload : Value) (alias : Alias) :
  unwrapping (stringParsingFix JSON_parse rawPayload) = Ok (chartPayload, alias) ->
  adapt JSON_parse rawPayload = Ok (adapted chartPayload, alias)
  /\ rules chartPayload = Ok (adapted chartPayload).
Proof.
  intros U. split.
  - rewrite adapt_decomposed, U. reflexivity.
  - apply rules_table.
    destruct (stringParsingFix JSON_parse rawPayload) as [ c a ].
    destruct (nullish c) eqn:Hc;
      [ rewrite unwrapping_nullish in U by assumption; discriminate | ].
    rewrite unwrapping_spec in U by assumption.
    destruct (truthy (field c "chart_data")) eqn:T; injection U as <- <-;
      [ now apply truthy_nullish | assumption ].
Qed.

Lemma adapt_table_witness :
  adapt parseLiteral (VObj [ ("dataset", VObj [ ("label", VStr "s") ]) ])
  = Ok (adapted (VObj [ ("dataset", VObj [ ("label", VStr "s") ]) ]), Whole).
Proof.
  apply (adapt_table parseLiteral (VObj [ ("dataset", VObj [ ("label", VStr "s") ]) ])).
  reflexivity.
Defined.

(** *** Running the rules twice *)



Lemma hasAxes_withDatasets (props : list (string * Value)) (d : Value) :
  hasAxes (withDatasets (VObj props) d) = hasAxes (VObj props).
Proof.
  unfold hasAxes. simpl. now rewrite !get_set_other by discriminate.
Qed.

(** The table applied twice is the table applied once. *)
Lemma adapted_settled (cp : Value) : adapted (adapted cp) = adapted cp.
Proof.
  destruct cp as [ | | | | | | props ]; try reflexivity.
  remember (adapted (VObj props)) as r eqn:Er. unfold adapted in Er.
  destruct (truthy (field (VObj props) "data")) eqn:Td.
  - destruct (hasAxes (field (VObj props) "data")) eqn:Ax.
    + subst r. unfold adapted. read_data. reflexivity.
    + destruct (truthy (field (field (VObj props) "data") "dataset")) eqn:T1;
        cbn [andb] in Er.
      * destruct (truthy (field (field (VObj props) "data") "datasets")) eqn:Ts;
          cbn [negb] in Er.
        -- subst r. unfold adapted. now rewrite Td, Ax, T1, Ts.
        -- destruct (truthy_field _ _ T1) as [ data Ed ].
           subst r. unfold adapted. read_data. rewrite Ed in *.
           rewrite hasAxes_withDatasets, Ax. simpl.
           rewrite get_set_same. now rewrite truthy_asArray, andb_false_r.
      * subst r. unfold adapted. now rewrite Td, Ax, T1.
  - destruct (truthy (field (VObj props) "datasets")) eqn:Ts.
    + subst r. unfold adapted. read_data. reflexivity.
    + destruct (truthy (field (VObj props) "dataset")) eqn:T1.
      * subst r. unfold adapted. read_data. reflexivity.
      * subst r. unfold adapted. now rewrite Td, Ts, T1.
Qed.

Lemma nullish_adapted (cp : Value) : nullish cp = false -> nullish (adapted cp) = false.
Proof.
  intros H. unfold adapted.
  destruct cp as [ | | | | | | props ]; try exact H.
  repeat match goal with
         | |- context [ if ?b then _ else _ ] => destruct b
         end; reflexivity.
Qed.

(** X9.  The adaptation is idempotent: when the four cases have run on a
    payload, running them again on the result leaves it as it is. *)
Theorem rules_idempotent (cp cp' : Value) :
  nullish cp = false -> rules cp = Ok cp' -> rules cp' = Ok cp'.
Proof.
  intros N R. rewrite rules_table in R by assumption. injection R as <-.
  rewrite rules_table by now apply nullish_adapted.
  now rewrite adapted_settled.
Qed.

Lemma rules_idempotent_witness :
  rules (withData (VObj [ ("data", VObj [ ("x", VArr []); ("y", VArr []) ]) ])
                  (axesData (VObj [ ("x", VArr []); ("y", VArr []) ])))
  = Ok (withData (VObj [ ("data", VObj [ ("x", VArr []); ("y", VArr []) ]) ])
                 (axesData (VObj [ ("x", VArr []); ("y", VArr []) ]))).
Proof.
  apply (rules_idempotent (VObj [ ("data", VObj [ ("x", VArr []); ("y", VArr []) ]) ]));
    reflexivity.
Defined.

(** *** Rendering again after a render has written to the payload *)








End ChatMore.

(** ** ChatInterface: what is drawn, with which options, and when it throws *)

Module ChatDrawing.

Import ChatInterface Spec ChatFacts ChatMore.
Local Open Scope list_scope.
Local Open Scope Q_scope.

(** *** The chart kind *)

(** The kind the [switch] settles on for a [type] property; [None] is the
    caught error. *)
Definition kindOf (type : Value) : option ChartKind :=
  match type with
  | VStr s => Some (if String.eqb (Str.toLowerCase s) "bar" then KBar else KLine)
  | _ => if truthy type then None else Some KLine
  end.

Definition drawn (k : option ChartKind) (data options : Value) : Element :=
  match k with
  | Some KLine => LineChart data options
  | Some KBar => BarChart data options
  | None => RenderError
  end.

Lemma lower_upper_char (c : ascii) :
  Str.lower_char (Str.upper_char c) = Str.lower_char c.
Proof. destruct c as [ [] [] [] [] [] [] [] [] ]; reflexivity. Qed.

Lemma lower_lower_char (c : ascii) :
  Str.lower_char (Str.lower_char c) = Str.lower_char c.
Proof. destruct c as [ [] [] [] [] [] [] [] [] ]; reflexivity. Qed.

Lemma toLowerCase_toUpperCase (s : string) :
  Str.toLowerCase (Str.toUpperCase s) = Str.toLowerCase s.
Proof.
  unfold Str.toLowerCase, Str.toUpperCase.
  induction s as [ | c s IH ]; simpl; [ reflexivity | ].
  now rewrite lower_upper_char, IH.
Qed.

Lemma toLowerCase_toLowerCase (s : string) :
  Str.toLowerCase (Str.toLowerCase s) = Str.toLowerCase s.
Proof.
  unfold Str.toLowerCase.
  induction s as [ | c s IH ]; simpl; [ reflexivity | ].
  now rewrite lower_lower_char, IH.
Qed.

Lemma chartElement_kind (type data options : Value) :
  tryCatch (chartElement type data options) RenderError = drawn (kindOf type) data options.
Proof.
  unfold chartElement, kindOf, drawn.
  destruct type as [ | | b | q | s | items | props ]; simpl; try reflexivity.
  - now destruct b.
  - now destruct (Qeq_bool q 0).
  - destruct (String.eqb_spec s "") as [ -> | _ ]; simpl; [ reflexivity | ].
    destruct (String.eqb_spec (Str.toLowerCase s) "line") as [ -> | _ ]; [ reflexivity | ].
    now destruct (String.eqb (Str.toLowerCase s) "bar").
Qed.

(** X11.  For a payload that passes the validation, the element is a bar
    chart exactly when [type] is a string that reads "bar" in any letter
    case, the error text when [type] is truthy and not a string, and a
    line chart otherwise; it carries the adapted [data] and the decorated
    [options].  The kind does not depend on the letter case of [type]. *)
Theorem chart_kind (JSON_parse : string -> option Value)
    (rawPayload chartPayload : Value) (alias : Alias) :
  truthy rawPayload = true ->
  adapt JSON_parse rawPayload = Ok (chartPayload, alias) ->
  exposesSeries chartPayload = true ->
  renderChart JSON_parse rawPayload
  = Ok (drawn (kindOf (field chartPayload "type"))
              (field chartPayload "data")
              (chartOptions (field chartPayload "options")))
  /\ (forall s, kindOf (VStr (Str.toUpperCase s)) = kindOf (VStr s)
                /\ kindOf (VStr (Str.toLowerCase s)) = kindOf (VStr s)).
Proof.
  intros Ht A X. split.
  - pose proof (exposesSeries_nullish _ X) as N.
    unfold renderChart. rewrite Ht, A. cbn [negb bind].
    rewrite malformed_exposes, X by assumption. cbn [negb bind].
    rewrite !get_field by assumption. cbn [bind].
    now rewrite chartElement_kind.
  - intros s. unfold kindOf.
    now rewrite toLowerCase_toUpperCase, toLowerCase_toLowerCase.
Qed.

Lemma chart_kind_witness :
  renderChart parseLiteral
    (VObj [ ("type", VStr "BAR"); ("datasets", VArr [ VObj [ ("data", VArr [ VNum 1 ]) ] ]) ])
  = Ok (BarChart (VObj [ ("labels", VArr []);
                         ("datasets", VArr [ VObj [ ("data", VArr [ VNum 1 ]) ] ]) ])
                 (chartOptions VUndefined)).
Proof.
  refine (proj1 (chart_kind parseLiteral
    (VObj [ ("type", VStr "BAR"); ("datasets", VArr [ VObj [ ("data", VArr [ VNum 1 ]) ] ]) ])
    (adapted (VObj [ ("type", VStr "BAR");
                     ("datasets", VArr [ VObj [ ("data", VArr [ VNum 1 ]) ] ]) ]))
    Whole _ _ _)); reflexivity.
Defined.

(** *** The decorated options *)

Lemma find_app {A} (f : A -> bool) (l1 l2 : list A) :
  find f (l1 ++ l2) = match find f l1 with Some x => Some x | None => find f l2 end.
Proof. induction l1 as [ | a l1 IH ]; simpl; [ reflexivity | ]. now destruct (f a). Qed.

(** Reading a property of an object literal: the last entry of that name
    decides. *)
Lemma get_fold_set (k : string) (entries obj : list (string * Value)) :
  Rec.get k (fold_left (fun o e => Rec.set (fst e) (snd e) o) entries obj)
  = match find (fun e => String.eqb (fst e) k) (rev entries) with
    | Some e => Some (snd e)
    | None => Rec.get k obj
    end.
Proof.
  revert obj. induction entries as [ | e entries IH ] using rev_ind; intros obj;
    [ reflexivity | ].
  rewrite fold_left_app, rev_unit. simpl.
  destruct (String.eqb_spec (fst e) k) as [ <- | Hne ].
  - apply get_set_same.
  - rewrite get_set_other by assumption. apply IH.
Qed.

(** With distinct names, the last entry of a name is the first. *)
Lemma find_rev_NoDup (k : string) (props : list (string * Value)) :
  NoDup (map fst props) ->
  match find (fun e => String.eqb (fst e) k) (rev props) with
  | Some e => Some (snd e)
  | None => None
  end = Rec.get k props.
Proof.
  induction props as [ | [ k' v ] props IH ]; intros D; [ reflexivity | ].
  inversion D as [ | ? ? Hnotin D' ]; subst. simpl. rewrite find_app. simpl.
  destruct (String.eqb_spec k' k) as [ -> | Hne ].
  - destruct (find (fun e => String.eqb (fst e) k) (rev props)) as [ e | ] eqn:E;
      [ | reflexivity ].
    apply find_some in E as [ Hin He ]. apply String.eqb_eq in He. subst k.
    exfalso. apply Hnotin, list_elem_of_In, in_map. now apply in_rev.
  - rewrite <- (IH D').
    now destruct (find (fun e => String.eqb (fst e) k) (rev props)).
Qed.

(** The four properties the function always sets. *)
Definition fixedOption (k : string) : bool :=
  String.eqb k "responsive" || String.eqb k "maintainAspectRatio"
  || String.eqb k "plugins" || String.eqb k "scales".

(** X12.  The display settings of the function win over the payload's:
    [responsive], [maintainAspectRatio], [plugins] and [scales] read the
    same whatever the payload's options are; every other property of an
    options object (with distinct property names) reads as the payload
    gave it. *)
Theorem chartOptions_merge (options : Value) :
  (forall k, fixedOption k = true ->
             field (chartOptions options) k = field (chartOptions VUndefined) k)
  /\ (forall props k,
        options = VObj props -> NoDup (map fst props) -> fixedOption k = false ->
        field (chartOptions options) k = field options k).
Proof.
  unfold chartOptions, objectLiteral, field. split.
  - intros k Hk. rewrite !get_fold_set, !rev_app_distr. cbn [rev app ownEntries].
    unfold fixedOption in Hk. cbn [find fst].
    rewrite (String.eqb_sym "scales"), (String.eqb_sym "plugins"),
      (String.eqb_sym "maintainAspectRatio"), (String.eqb_sym "responsive").
    destruct (String.eqb k "scales"); [ reflexivity | ].
    destruct (String.eqb k "plugins"); [ reflexivity | ].
    destruct (String.eqb k "maintainAspectRatio"); [ reflexivity | ].
    destruct (String.eqb k "responsive"); [ reflexivity | discriminate ].
  - intros props k -> D Hk. rewrite get_fold_set, rev_app_distr. cbn [rev app].
    unfold fixedOption in Hk. cbn [find fst].
    rewrite (String.eqb_sym "scales"), (String.eqb_sym "plugins"),
      (String.eqb_sym "maintainAspectRatio"), (String.eqb_sym "responsive").
    apply orb_false_iff in Hk as [ Hk Hs ]. apply orb_false_iff in Hk as [ Hk Hp ].
    apply orb_false_iff in Hk as [ Hr Hm ]. rewrite Hs, Hp, Hm, Hr.
    cbn [ownEntries]. rewrite <- (find_rev_NoDup k props D).
    now destruct (find (fun e => String.eqb (fst e) k) (rev props)).
Qed.

Lemma chartOptions_merge_witness :
  field (chartOptions (VObj [ ("responsive", VBool false); ("animation", VBool false) ]))
        "animation"
  = field (VObj [ ("responsive", VBool false); ("animation", VBool false) ]) "animation"
  /\ field (chartOptions (VObj [ ("responsive", VBool false); ("animation", VBool false) ]))
           "responsive"
     = field (chartOptions VUndefined) "responsive".
Proof.
  split.
  - apply (proj2 (chartOptions_merge
                    (VObj [ ("responsive", VBool false); ("animation", VBool false) ]))
                 [ ("responsive", VBool false); ("animation", VBool false) ] "animation");
      [ reflexivity | | reflexivity ].
    apply (bool_decide_unpack _). vm_compute. exact I.
  - apply (proj1 (chartOptions_merge
                    (VObj [ ("responsive", VBool false); ("animation", VBool false) ]))
                 "responsive").
    reflexivity.
Defined.

(** *** When the function throws *)

(** X13.  [renderChart] throws in exactly one situation: the payload is a
    non-empty text that the decoder turns into [null] (or [undefined]);
    the read of [chart_data] then fails with a TypeError outside any
    [try].  On every other payload it returns an element. *)
Theorem renderChart_throws_iff (JSON_parse : string -> option Value)
    (rawPayload : Value) :
  (renderChart JSON_parse rawPayload = Throw TypeError <->
   exists s, rawPayload = VStr s /\ s <> ""
             /\ (JSON_parse s = Some VNull \/ JSON_parse s = Some VUndefined))
  /\ (renderChart JSON_parse rawPayload = Throw TypeError
      \/ exists element, renderChart JSON_parse rawPayload = Ok element).
Proof.
  split.
  - rewrite renderChart_throws_only_on_null. split.
    + intros [ Ht Hn ]. destruct rawPayload as [ | | | | s | | ]; try discriminate.
      exists s. split; [ reflexivity | ]. split.
      * intros ->. discriminate.
      * simpl in Hn. destruct (JSON_parse s) as [ [ ] | ]; simpl in Hn; auto; discriminate.
    + intros (s & -> & Hs & Hp). split.
      * simpl. now destruct (String.eqb_spec s "").
      * simpl. destruct Hp as [ -> | -> ]; reflexivity.
  - destruct (renderChart JSON_parse rawPayload) as [ element | [ ] ].
    + right. now exists element.
    + now left.
Qed.

End ChatDrawing.

(** ** ForecastsChart: the rows and the highlight state *)

Module ForecastsMore.

Import ForecastsChart ForecastsFacts ChatFacts ChatMore.
Local Open Scope list_scope.
Local Open Scope Q_scope.

Definition setCell (i : nat) (e : list (string * Cell)) (kv : string * list Q)
  : list (string * Cell) :=
  assign (fst kv) (valueAt (snd kv) i) e.

(** An assignment leaves the other names alone. *)
Lemma get_assign_other (k k' : string) (v : Cell) (e : list (string * Cell)) :
  k' <> k -> Rec.get k (assign k' v e) = Rec.get k e.
Proof.
  intros H. unfold assign. destruct (String.eqb k' "__proto__"); [ reflexivity | ].
  apply get_set_other. congruence.
Qed.

(** A key that is no series keeps what the row held. *)
Lemma fold_other (forecasts : list (string * list Q)) (i : nat) (k : string)
    (e : list (string * Cell)) :
  ~ In k (map fst forecasts) ->
  Rec.get k (fold_left (setCell i) forecasts e) = Rec.get k e.
Proof.
  revert e. induction forecasts as [ | [ k' vs ] forecasts IH ]; intros e Hk; [ reflexivity | ].
  simpl in *. rewrite IH by tauto. unfold setCell. simpl.
  apply get_assign_other. tauto.
Qed.

(** A series key holds the value of its series. *)
Lemma fold_series (forecasts : list (string * list Q)) (i : nat) (k : string)
    (vs : list Q) (e : list (string * Cell)) :
  NoDup (map fst forecasts) -> In (k, vs) forecasts -> k <> "__proto__" ->
  Rec.get k (fold_left (setCell i) forecasts e) = Some (valueAt vs i).
Proof.
  revert e. induction forecasts as [ | [ k' vs' ] forecasts IH ]; intros e D Hin Hk;
    [ destruct Hin | ].
  simpl in D. apply NoDup_cons in D as [ Hnotin D ].
  simpl. destruct Hin as [ [= -> ->] | Hin ].
  - rewrite fold_other by (now rewrite <- list_elem_of_In).
    unfold setCell, assign. simpl.
    apply String.eqb_neq in Hk. rewrite Hk. apply get_set_same.
  - now apply IH.
Qed.

(** No assignment gives the row a property named [__proto__]. *)
Lemma fold_proto (forecasts : list (string * list Q)) (i : nat) (e : list (string * Cell)) :
  Rec.get "__proto__" (fold_left (setCell i) forecasts e) = Rec.get "__proto__" e.
Proof.
  revert e. induction forecasts as [ | [ k' vs ] forecasts IH ]; intros e; [ reflexivity | ].
  simpl. rewrite IH. unfold setCell, assign. simpl.
  destruct (String.eqb_spec k' "__proto__") as [ _ | Hne ]; [ reflexivity | ].
  now apply get_set_other.
Qed.

(** X14.  The chart gets one row per index of the first series (none
    without series): longer series are cut there.  With distinct series
    names, row [i] holds under every series name but [__proto__] the
    [i]-th value of that series, or [undefined] where the series is
    shorter, and under [hour] the label of [i] unless a series is itself
    named "hour".  A series named [__proto__] gives the row no property:
    the assignment of a number goes to the inherited setter. *)
Theorem chartData_rows (forecasts : list (string * list Q)) :
  chartData [] = []
  /\ (forall k0 first rest, forecasts = (k0, first) :: rest ->
        length (chartData forecasts) = length first)
  /\ (forall i row, nth_error (chartData forecasts) i = Some row ->
        Rec.get "__proto__" row = None
        /\ (NoDup (map fst forecasts) ->
            (forall k vs, In (k, vs) forecasts -> k <> "__proto__" ->
                          Rec.get k row = Some (valueAt vs i))
            /\ (~ In "hour" (map fst forecasts) ->
                Rec.get "hour" row = Some (CLabel (hourLabel i))))).
Proof.
  split; [ reflexivity | split ].
  - intros k0 first rest ->. unfold chartData. now rewrite length_map, length_seq.
  - intros i row Hrow. unfold chartData in Hrow.
    destruct forecasts as [ | [ k0 first ] rest ] eqn:E; [ destruct i; discriminate | ].
    rewrite <- E in *. rewrite nth_error_map, nth_error_seq in Hrow.
    destruct (Nat.ltb i (length first)); [ | discriminate ].
    simpl in Hrow. injection Hrow as <-. unfold entry.
    change (fun e kv => assign (fst kv) (valueAt (snd kv) i) e) with (setCell i).
    split; [ now rewrite fold_proto | ].
    intros D. split.
    + intros k vs Hin Hk. now apply fold_series.
    + intros Hh. now rewrite fold_other.
Qed.

(** Three series, one of them named [__proto__]: row 1 has the second
    spot price, no wind value, and no property for the third series. *)
Lemma chartData_rows_witness :
  Rec.get "Spot Price"
    (entry [ ("Spot Price", [ 1; 2; 3 ]); ("__proto__", [ 7; 8; 9 ]); ("Wind Forecast", [ 5 ]) ] 1)
  = Some (CNum 2)
  /\ Rec.get "Wind Forecast"
       (entry [ ("Spot Price", [ 1; 2; 3 ]); ("__proto__", [ 7; 8; 9 ]); ("Wind Forecast", [ 5 ]) ] 1)
     = Some CUndefined
  /\ Rec.get "__proto__"
       (entry [ ("Spot Price", [ 1; 2; 3 ]); ("__proto__", [ 7; 8; 9 ]); ("Wind Forecast", [ 5 ]) ] 1)
     = None.
Proof.
  destruct (proj2 (proj2 (chartData_rows
              [ ("Spot Price", [ 1; 2; 3 ]); ("__proto__", [ 7; 8; 9 ]); ("Wind Forecast", [ 5 ]) ]))
              1%nat _ eq_refl) as [ P R ].
  destruct R as [ S _ ]; [ apply (bool_decide_unpack _); vm_compute; exact I | ].
  split; [ | split; [ | exact P ] ].
  - apply (S "Spot Price" [ 1; 2; 3 ]); [ simpl; auto | discriminate ].
  - apply (S "Wind Forecast" [ 5 ]); [ simpl; auto | discriminate ].
Defined.

(** *** The highlight state *)

(** A click the legend can produce: on the item of a configured series. *)
Definition fromLegend (ev : Event) : Prop :=
  match ev with
  | LegendClick dataKey => In dataKey (map key seriesConfig)
  | ResetZoom => True
  end.

Definition run (events : list Event) : option string := fold_left step events initialHighlight.

Definition thick (p : LineProps) : bool := Qeq_bool (strokeWidth p) 4.
Definition faint (p : LineProps) : bool := Qeq_bool (strokeOpacity p) 0.15.

Definition count (f : LineProps -> bool) (l : list LineProps) : nat :=
  length (List.filter f l).

(** The states the component can be in. *)
Definition configured (h : option string) : Prop :=
  match h with
  | Some k => In k (map key seriesConfig)
  | None => True
  end.

Lemma step_configured (h : option string) (ev : Event) :
  configured h -> fromLegend ev -> configured (step h ev).
Proof.
  intros Hh Hev. destruct ev as [ k | ]; simpl in *; [ | exact I ].
  unfold handleLegendClick. destruct h as [ h | ]; [ | exact Hev ].
  destruct (String.eqb h k); [ exact I | exact Hev ].
Qed.

Lemma run_configured (events : list Event) :
  Forall fromLegend events -> configured (run events).
Proof.
  unfold run. assert (H0 : configured initialHighlight) by (simpl; tauto).
  revert H0. generalize initialHighlight as h.
  induction events as [ | ev events IH ]; intros h H0 F; [ exact H0 | ].
  inversion F; subst. simpl. apply IH; [ now apply step_configured | assumption ].
Qed.

(** X15.  Whatever the user clicks (legend items, the reset button), the
    highlight is either unset or names one of the four configured series;
    when set, exactly one line is drawn thick and the three others faint;
    when unset, no line is thick and none is faint. *)
Theorem highlight_reachable (events : list Event) :
  Forall fromLegend events ->
  match run events with
  | Some k => In k (map key seriesConfig)
              /\ count thick (lines (Some k)) = 1%nat
              /\ count faint (lines (Some k)) = 3%nat
  | None => count thick (lines None) = 0%nat /\ count faint (lines None) = 0%nat
  end.
Proof.
  intros F. pose proof (run_configured events F) as C.
  destruct (run events) as [ k | ]; [ | split; reflexivity ].
  split; [ exact C | ]. simpl in C.
  destruct C as [ <- | [ <- | [ <- | [ <- | [] ] ] ] ]; split; reflexivity.
Qed.

Lemma highlight_reachable_witness :
  match run [ LegendClick "Wind Forecast"; ResetZoom; LegendClick "Consumption Forecast" ] with
  | Some k => In k (map key seriesConfig)
              /\ count thick (lines (Some k)) = 1%nat
              /\ count faint (lines (Some k)) = 3%nat
  | None => count thick (lines None) = 0%nat /\ count faint (lines None) = 0%nat
  end.
Proof.
  apply (highlight_reachable
           [ LegendClick "Wind Forecast"; ResetZoom; LegendClick "Consumption Forecast" ]).
  repeat constructor; simpl; tauto.
Defined.

End ForecastsMore.

(** ** SparklineChart: the points and the peak *)

Module SparklineFacts.

Import SparklineChart.
Local Open Scope list_scope.
Local Open Scope Q_scope.

Lemma Math_min_le (d : Q) (rest : list Q) (v : Q) :
  In v (d :: rest) -> Math_min d rest <= v.
Proof.
  unfold Math_min. induction rest as [ | e rest IH ]; simpl.
  - intros [ <- | [] ]. lra.
  - intros [ <- | [ <- | H ] ].
    + eapply Qle_trans; [ apply Q.le_min_r | ]. apply IH. now left.
    + apply Q.le_min_l.
    + eapply Qle_trans; [ apply Q.le_min_r | ]. apply IH. now right.
Qed.

Lemma le_Math_max (d : Q) (rest : list Q) (v : Q) :
  In v (d :: rest) -> v <= Math_max d rest.
Proof.
  unfold Math_max. induction rest as [ | e rest IH ]; simpl.
  - intros [ <- | [] ]. lra.
  - intros [ <- | [ <- | H ] ].
    + eapply Qle_trans; [ | apply Q.le_max_r ]. apply IH. now left.
    + apply Q.le_max_l.
    + eapply Qle_trans; [ | apply Q.le_max_r ]. apply IH. now right.
Qed.

(** The maximum is one of the values. *)
Lemma Math_max_attained (d : Q) (rest : list Q) :
  exists v, In v (d :: rest) /\ v == Math_max d rest.
Proof.
  unfold Math_max. induction rest as [ | e rest (v & Hin & Hv) ]; simpl.
  - exists d. split; [ now left | reflexivity ].
  - destruct (Q.max_dec e (fold_right Qmax d rest)) as [ E | E ].
    + exists e. split; [ right; now left | now rewrite E ].
    + exists v. split; [ destruct Hin; [ now left | right; now right ] | ].
      now rewrite E.
Qed.

Lemma mapIndexed_nth {A B} (f : A -> nat -> B) (l : list A) (from i : nat) :
  nth_error (mapIndexed f l from) i = option_map (fun a => f a (from + i)%nat) (nth_error l i).
Proof.
  revert from i. induction l as [ | a l IH ]; intros from i; destruct i; simpl;
    try reflexivity.
  - now rewrite Nat.add_0_r.
  - rewrite IH. now rewrite Nat.add_succ_r.
Qed.

Lemma mapIndexed_In {A B} (f : A -> nat -> B) (l : list A) (from : nat) (b : B) :
  In b (mapIndexed f l from) -> exists a i, In a l /\ b = f a i.
Proof.
  revert from. induction l as [ | a l IH ]; intros from; simpl; [ intros [] | ].
  intros [ <- | H ]; [ exists a, from; auto | ].
  destruct (IH _ H) as (a' & i & Ha & ->). exists a', i. auto.
Qed.

(** The divisor [max - min || 1] is positive, and at least the spread. *)
Lemma range_positive (d : Q) (rest : list Q) :
  0 < orOne (Math_max d rest - Math_min d rest)
  /\ Math_max d rest - Math_min d rest <= orOne (Math_max d rest - Math_min d rest).
Proof.
  assert (H : Math_min d rest <= Math_max d rest).
  { eapply Qle_trans; [ apply (Math_min_le d rest d) | apply (le_Math_max d rest d) ];
      now left. }
  unfold orOne. destruct (Qeq_bool _ 0) eqn:E.
  - apply Qeq_bool_iff in E. lra.
  - apply Qeq_bool_neq in E. lra.
Qed.

(** X16.  For any data and any height of at least twice the padding,
    every point is normalised into 0..1 and drawn between the padding
    lines, [padding <= y <= height - padding]: no value is clipped, and a
    flat series does not divide by zero. *)
Theorem points_in_box (data : list Q) (width height : Q) (p : Point) :
  padding * 2 <= height ->
  In p (points data width height) ->
  0 <= normalizedValue p /\ normalizedValue p <= 1
  /\ padding <= y p /\ y p <= height - padding.
Proof.
  intros Hh Hp. destruct data as [ | d rest ]; [ destruct Hp | ].
  unfold points in Hp. apply mapIndexed_In in Hp as (v & i & Hv & ->).
  destruct (range_positive d rest) as [ Rpos Rge ].
  pose proof (Math_min_le d rest v Hv) as Hlo.
  pose proof (le_Math_max d rest v Hv) as Hhi.
  set (r := orOne (Math_max d rest - Math_min d rest)) in *.
  set (m := Math_min d rest) in *.
  assert (N0 : 0 <= (v - m) / r).
  { unfold Qdiv. apply Qmult_le_0_compat; [ lra | ]. apply Qinv_le_0_compat. lra. }
  assert (N1 : (v - m) / r <= 1).
  { apply Qle_shift_div_r; [ exact Rpos | lra ]. }
  unfold point, padding in *. simpl.
  assert (P0 : 0 <= (v - m) / r * (height - 4 * 2))
    by (apply Qmult_le_0_compat; lra).
  assert (P1 : (v - m) / r * (height - 4 * 2) <= 1 * (height - 4 * 2))
    by (apply Qmult_le_compat_r; lra).
  repeat split; lra.
Qed.

Lemma points_in_box_witness :
  0 <= normalizedValue (point [ 7; 7 ] 7 1 200 48 7 0)
  /\ normalizedValue (point [ 7; 7 ] 7 1 200 48 7 0) <= 1
  /\ padding <= y (point [ 7; 7 ] 7 1 200 48 7 0)
  /\ y (point [ 7; 7 ] 7 1 200 48 7 0) <= 48 - padding.
Proof.
  apply (points_in_box [ 7; 7 ] 200 48 (point [ 7; 7 ] 7 1 200 48 7 0)).
  - unfold padding. lra.
  - now left.
Defined.

(** X17.  With at least two values and a non-negative width, point [i]
    lies at [i / (n - 1) * width], between 0 and the width: the first
    point at 0 and the last at the width.  With a single value the
    division is 0 / 0 and the point has no finite [x]. *)
Theorem points_across (data : list Q) (width height : Q) :
  (forall i p,
      (2 <= length data)%nat -> 0 <= width ->
      nth_error (points data width height) i = Some p ->
      exists v, x p = Some v
                /\ v == inject_Z (Z.of_nat i) / (inject_Z (Z.of_nat (length data)) - 1) * width
                /\ 0 <= v /\ v <= width
                /\ (i = 0%nat -> v == 0)
                /\ (S i = length data -> v == width))
  /\ (forall d p, data = [ d ] -> In p (points data width height) -> x p = None).
Proof.
  split.
  - intros i p Hn Hw Hp. destruct data as [ | d rest ]; [ simpl in Hn; lia | ].
    unfold points in Hp. rewrite mapIndexed_nth in Hp.
    destruct (nth_error (d :: rest) i) as [ v | ] eqn:Ev; [ | discriminate ].
    assert (Hi : (i < length (d :: rest))%nat) by (apply nth_error_Some; congruence).
    injection Hp as <-. simpl Nat.add.
    set (n := length (d :: rest)) in *.
    assert (Hn1 : 1 <= inject_Z (Z.of_nat n) - 1).
    { assert (2 <= inject_Z (Z.of_nat n)); [ | lra ].
      change 2 with (inject_Z 2). rewrite <- Zle_Qle. lia. }
    assert (Hin : inject_Z (Z.of_nat i) <= inject_Z (Z.of_nat n) - 1).
    { assert (inject_Z (Z.of_nat i) + 1 <= inject_Z (Z.of_nat n)); [ | lra ].
      change 1 with (inject_Z 1). rewrite <- inject_Z_plus, <- Zle_Qle. lia. }
    assert (Hi0 : 0 <= inject_Z (Z.of_nat i)).
    { change 0 with (inject_Z 0). rewrite <- Zle_Qle. lia. }
    assert (E : Qeq_bool (inject_Z (Z.of_nat n) - 1) 0 = false).
    { destruct (Qeq_bool _ 0) eqn:E; [ apply Qeq_bool_iff in E; lra | reflexivity ]. }
    unfold point. cbn [x]. unfold divide. fold n. rewrite E.
    cbn [option_map]. eexists. split; [ reflexivity | ].
    set (q := inject_Z (Z.of_nat i) / (inject_Z (Z.of_nat n) - 1)).
    assert (Q0 : 0 <= q).
    { unfold q, Qdiv. apply Qmult_le_0_compat; [ exact Hi0 | ].
      apply Qinv_le_0_compat. lra. }
    assert (Q1 : q <= 1) by (unfold q; apply Qle_shift_div_r; lra).
    split; [ reflexivity | ].
    split; [ apply Qmult_le_0_compat; assumption | ].
    split; [ | split ].
    + assert (q * width <= 1 * width) by (apply Qmult_le_compat_r; assumption). lra.
    + intros ->. unfold q. simpl. unfold Qdiv. ring.
    + intros Hl. unfold q.
      assert (Ei : inject_Z (Z.of_nat i) == inject_Z (Z.of_nat n) - 1).
      { assert (inject_Z (Z.of_nat i) + 1 == inject_Z (Z.of_nat n)); [ | lra ].
        change 1 with (inject_Z 1). rewrite <- inject_Z_plus.
        apply inject_Z_injective. lia. }
      rewrite Ei. field. lra.
  - intros d p -> [ <- | [] ]. reflexivity.
Qed.

Lemma points_across_witness :
  exists v, x (point [ 3; 9 ] 3 6 200 48 9 1) = Some v
            /\ v == inject_Z (Z.of_nat 1) / (inject_Z (Z.of_nat (length [ 3; 9 ])) - 1) * 200
            /\ 0 <= v /\ v <= 200
            /\ (1%nat = 0%nat -> v == 0)
            /\ (2%nat = length [ 3; 9 ] -> v == 200).
Proof.
  apply (proj1 (points_across [ 3; 9 ] 200 48) 1%nat (point [ 3; 9 ] 3 6 200 48 9 1)).
  - simpl. lia.
  - lra.
  - reflexivity.
Defined.

(** [findIndex] finds the first value equal to the one sought. *)
Lemma findIndex_first (m : Q) (data : list Q) (from : nat) :
  (exists v, In v data /\ v == m) ->
  exists i v, findIndex m data from = Some (from + i)%nat
              /\ nth_error data i = Some v /\ v == m
              /\ forall j w, (j < i)%nat -> nth_error data j = Some w -> ~ w == m.
Proof.
  revert from. induction data as [ | d data IH ]; intros from (v & Hin & Hv);
    [ destruct Hin | ].
  simpl. destruct (Qeq_bool d m) eqn:E.
  - apply Qeq_bool_iff in E. exists 0%nat, d. rewrite Nat.add_0_r.
    repeat split; auto. intros j w Hj. lia.
  - apply Qeq_bool_neq in E.
    destruct Hin as [ -> | Hin ]; [ contradiction | ].
    destruct (IH (S from) (ex_intro _ v (conj Hin Hv))) as (i & w & F & N & Hw & First).
    exists (S i), w. rewrite Nat.add_succ_r. repeat split; auto.
    intros [ | j ] u Hj Hu; simpl in Hu.
    + now injection Hu as <-.
    + apply (First j u); [ lia | exact Hu ].
Qed.

(** X18.  For non-empty data the peak dot is the point of the first
    value that equals the maximum.  When the values are not all equal it
    sits on the top padding line, [y = padding]; when they are all equal
    it sits on the bottom one, [y = height - padding]. *)
Theorem peak_is_first_maximum (data : list Q) (width height : Q) (d : Q) (rest : list Q) :
  data = d :: rest ->
  exists i v p,
    findIndex (Math_max d rest) data 0 = Some i
    /\ nth_error data i = Some v /\ v == Math_max d rest
    /\ (forall j w, (j < i)%nat -> nth_error data j = Some w -> w < Math_max d rest)
    /\ peakPoint data width height = Some p
    /\ (Math_min d rest < Math_max d rest -> y p == padding)
    /\ (Math_min d rest == Math_max d rest -> y p == height - padding).
Proof.
  intros ->.
  destruct (findIndex_first (Math_max d rest) (d :: rest) 0 (Math_max_attained d rest))
    as (i & v & F & N & Hv & First).
  simpl Nat.add in F.
  exists i, v, (point (d :: rest) (Math_min d rest)
                      (orOne (Math_max d rest - Math_min d rest)) width height v i).
  split; [ exact F | ]. split; [ exact N | ]. split; [ exact Hv | ]. split.
  - intros j w Hj Hw. specialize (First j w Hj Hw).
    assert (w <= Math_max d rest) by (apply le_Math_max; eapply nth_error_In; eauto).
    destruct (Qlt_le_dec w (Math_max d rest)) as [ H' | H' ]; [ exact H' | ].
    exfalso. apply First. lra.
  - split.
    + unfold peakPoint. rewrite F. unfold points. rewrite mapIndexed_nth, N. reflexivity.
    + unfold point, padding. cbn [y]. unfold orOne. split.
      * intros Hlt. destruct (Qeq_bool _ 0) eqn:E; [ apply Qeq_bool_iff in E; lra | ].
        rewrite Hv. field. lra.
      * intros Heq. destruct (Qeq_bool _ 0) eqn:E;
          [ | apply Qeq_bool_neq in E; lra ].
        rewrite Hv. unfold Qdiv. rewrite Heq. ring.
Qed.

Lemma peak_is_first_maximum_witness :
  exists i v p,
    findIndex (Math_max 2 [ 9; 9 ]) [ 2; 9; 9 ] 0 = Some i
    /\ nth_error [ 2; 9; 9 ] i = Some v /\ v == Math_max 2 [ 9; 9 ]
    /\ (forall j w, (j < i)%nat -> nth_error [ 2; 9; 9 ] j = Some w -> w < Math_max 2 [ 9; 9 ])
    /\ peakPoint [ 2; 9; 9 ] 200 48 = Some p
    /\ (Math_min 2 [ 9; 9 ] < Math_max 2 [ 9; 9 ] -> y p == padding)
    /\ (Math_min 2 [ 9; 9 ] == Math_max 2 [ 9; 9 ] -> y p == 48 - padding).
Proof. apply (peak_is_first_maximum [ 2; 9; 9 ] 200 48 2 [ 9; 9 ]). reflexivity. Defined.

End SparklineFacts.

(** ** Index: the volatility headline *)

Module IndexFacts.

Import Index.

(** X19.  While loading the headline is "Analyzing...".  Otherwise a
    non-empty level is shown with its first letter in upper case, followed
    by " Volatility"; with no level (nothing loaded, or an empty level)
    the headline is "U Volatility": the first letter of the fallback
    "Unknown" followed by the rest of the empty text. *)
Theorem headline_text (level : option string) :
  headline true level = "Analyzing..."
  /\ headline false level
     = match level with
       | Some (String c rest) => String (Str.upper_char c) (rest ++ " Volatility")
       | _ => "U Volatility"
       end.
Proof.
  split; [ reflexivity | ].
  destruct level as [ [ | c rest ] | ]; reflexivity.
Qed.

End IndexFacts.
